(** * Webhook signature verification of the Lettermint Go SDK

    A shallow embedding of [VerifyWebhook], [parseSignature], [computeHMAC]
    and [secureCompare] (file webhook.go of package lettermint), of the
    sentinel errors they wrap (errors.go) and of the Go standard-library
    routines they call, followed by the properties of the webhook verifier.
    The rest of the package follows: the adapter [VerifyWebhookFromRequest],
    the API errors, the client and its options (lettermint.go, options.go),
    the email builder with [Send] (email.go), and the handler of
    examples/webhook.

    Conventions.
    - A Go [string] is a [String.string]: a sequence of 8-bit characters.
    - A Go [[]byte] is a [list byte].
    - [int64] and [time.Duration] values are integers of [Z]; every
      arithmetic operation that can leave the 64-bit range is wrapped with
      [wrap64], as the machine does.
    - [time.Now().Unix()] is the argument [now] of [VerifyWebhook].
    - [json.Unmarshal] into a [WebhookEvent] is a parameter of the
      development (Section variable [json_Unmarshal]); so are
      [json.Marshal], the HTTP client and [http.StatusText] for [Send].
    - A Go map keyed by strings is an association list with distinct keys
      ([gomap]); an [*http.Client] is an index into a heap of clients. *)

From Stdlib Require Import ZArith List String Ascii Strings.Byte Bool Lia.
Import ListNotations.

Local Open Scope string_scope.
Local Open Scope Z_scope.

(** ** Bytes and strings *)

Definition byteZ (c : ascii) : Z := Z.of_N (N_of_ascii c).

Definition bytes_of_string (s : string) : list Z :=
  map byteZ (list_ascii_of_string s).

Definition rev_string (s : string) : string :=
  string_of_list_ascii (rev (list_ascii_of_string s)).

(** ** Package strings *)

Module strings.

(** [strings.Split(s, sep)] for a one-byte separator: the substrings between
    the occurrences of [sep]; never empty ([Split("", ",")] is [[""]]). *)
Fixpoint Split (s : string) (sep : ascii) : list string :=
  match s with
  | EmptyString => [EmptyString]
  | String c s' =>
      if Ascii.eqb c sep then EmptyString :: Split s' sep
      else match Split s' sep with
           | [] => [String c EmptyString]
           | p :: ps => String c p :: ps
           end
  end.

(** The text before and after the first occurrence of [sep], if any. *)
Fixpoint Cut (s : string) (sep : ascii) : option (string * string) :=
  match s with
  | EmptyString => None
  | String c s' =>
      if Ascii.eqb c sep then Some (EmptyString, s')
      else match Cut s' sep with
           | Some (a, b) => Some (String c a, b)
           | None => None
           end
  end.

(** [strings.SplitN(s, sep, 2)] for a one-byte separator. *)
Definition SplitN2 (s : string) (sep : ascii) : list string :=
  match Cut s sep with
  | Some (a, b) => [a; b]
  | None => [s]
  end.

(** The table [asciiSpace]: tab, line feed, vertical tab, form feed,
    carriage return, space. *)
Definition asciiSpace (b : Z) : bool :=
  (b =? 9) || (b =? 10) || (b =? 11) || (b =? 12) || (b =? 13) || (b =? 32).

(** One white-space rune at the front of [s], removed. [unicode.IsSpace]
    holds of the six ASCII spaces and of U+0085, U+00A0, U+1680,
    U+2000..U+200A, U+2028, U+2029, U+202F, U+205F and U+3000; each has a
    single valid UTF-8 encoding, and an invalid encoding decodes to
    U+FFFD, which is no space. *)
Definition leadingSpace (s : string) : option string :=
  match s with
  | EmptyString => None
  | String c0 r0 =>
      let b0 := byteZ c0 in
      if b0 <? 128 then (if asciiSpace b0 then Some r0 else None)
      else
        match r0 with
        | EmptyString => None
        | String c1 r1 =>
            let b1 := byteZ c1 in
            if (b0 =? 0xC2) && ((b1 =? 0x85) || (b1 =? 0xA0)) then Some r1
            else
              match r1 with
              | EmptyString => None
              | String c2 r2 =>
                  let b2 := byteZ c2 in
                  if ((b0 =? 0xE1) && (b1 =? 0x9A) && (b2 =? 0x80))
                     || ((b0 =? 0xE2) && (b1 =? 0x80)
                         && (((0x80 <=? b2) && (b2 <=? 0x8A))
                             || (b2 =? 0xA8) || (b2 =? 0xA9) || (b2 =? 0xAF)))
                     || ((b0 =? 0xE2) && (b1 =? 0x81) && (b2 =? 0x9F))
                     || ((b0 =? 0xE3) && (b1 =? 0x80) && (b2 =? 0x80))
                  then Some r2 else None
              end
        end
  end.

(** One white-space rune at the end of a string, removed; [r] is the string
    reversed, so the last byte comes first. *)
Definition trailingSpace (r : string) : option string :=
  match r with
  | EmptyString => None
  | String c0 r0 =>
      let b0 := byteZ c0 in
      if b0 <? 128 then (if asciiSpace b0 then Some r0 else None)
      else
        match r0 with
        | EmptyString => None
        | String c1 r1 =>
            let b1 := byteZ c1 in
            if (b1 =? 0xC2) && ((b0 =? 0x85) || (b0 =? 0xA0)) then Some r1
            else
              match r1 with
              | EmptyString => None
              | String c2 r2 =>
                  let b2 := byteZ c2 in
                  if ((b2 =? 0xE1) && (b1 =? 0x9A) && (b0 =? 0x80))
                     || ((b2 =? 0xE2) && (b1 =? 0x80)
                         && (((0x80 <=? b0) && (b0 <=? 0x8A))
                             || (b0 =? 0xA8) || (b0 =? 0xA9) || (b0 =? 0xAF)))
                     || ((b2 =? 0xE2) && (b1 =? 0x81) && (b0 =? 0x9F))
                     || ((b2 =? 0xE3) && (b1 =? 0x80) && (b0 =? 0x80))
                  then Some r2 else None
              end
        end
  end.

(** Remove runes while [strip] finds one; every step shortens the string, so
    a fuel of its length is never exhausted. *)
Fixpoint trimWith (strip : string -> option string) (fuel : nat) (s : string)
  : string :=
  match fuel with
  | O => s
  | S fuel' =>
      match strip s with
      | Some s' => trimWith strip fuel' s'
      | None => s
      end
  end.

Definition TrimLeftSpace (s : string) : string :=
  trimWith leadingSpace (String.length s) s.

Definition TrimRightSpace (s : string) : string :=
  rev_string (trimWith trailingSpace (String.length s) (rev_string s)).

(** [strings.TrimSpace]. *)
Definition TrimSpace (s : string) : string :=
  TrimRightSpace (TrimLeftSpace s).

End strings.

(** ** Package strconv *)

Module strconv.

Definition digitVal (c : ascii) : option Z :=
  let b := byteZ c in
  if (48 <=? b) && (b <=? 57) then Some (b - 48) else None.

Fixpoint parseDigits (s : string) (acc : Z) : option Z :=
  match s with
  | EmptyString => Some acc
  | String c s' =>
      match digitVal c with
      | Some d => parseDigits s' (acc * 10 + d)
      | None => None
      end
  end.

(** [strconv.ParseUint(s, 10, 64)]: [None] on a syntax or range error. *)
Definition ParseUint (s : string) : option Z :=
  match s with
  | EmptyString => None
  | _ =>
      match parseDigits s 0 with
      | Some n => if n <? 2 ^ 64 then Some n else None
      | None => None
      end
  end.

(** [strconv.ParseInt(s, 10, 64)]: an optional sign, then decimal digits, the
    value within the int64 range; [None] stands for a non-nil error (the
    caller does not tell a syntax error from a range error). *)
Definition ParseInt (s : string) : option Z :=
  match s with
  | EmptyString => None
  | String c s' =>
      let neg := Ascii.eqb c "-" in
      let digits := if Ascii.eqb c "+" || neg then s' else s in
      match ParseUint digits with
      | None => None
      | Some un =>
          let cutoff := 2 ^ 63 in
          if negb neg && (cutoff <=? un) then None
          else if neg && (cutoff <? un) then None
          else Some (if neg then - un else un)
      end
  end.

(** The digits of [n], most significant first, in front of [acc]. *)
Fixpoint formatBits (fuel : nat) (n : Z) (acc : string) : string :=
  match fuel with
  | O => acc
  | S fuel' =>
      let acc' := String (ascii_of_N (Z.to_N (48 + n mod 10))) acc in
      if n <? 10 then acc' else formatBits fuel' (n / 10) acc'
  end.

(** The verb [%d] of package fmt on an int64 ([strconv.FormatInt(i, 10)]):
    at most 19 digits, and a minus sign in front of a negative number. *)
Definition FormatInt (i : Z) : string :=
  if i <? 0 then String "-" (formatBits 20 (- i) "")
  else formatBits 20 i "".

End strconv.

(** The value of a byte, and the bytes of a [[]byte] as numbers. *)
Definition octet (b : byte) : Z := Z.of_N (Byte.to_N b).
Definition octets (p : list byte) : list Z := map octet p.

(** ** Package crypto/sha256 (FIPS 180-4) *)

Module sha256.

Definition u32 (x : Z) : Z := x mod 2 ^ 32.

(** [bits.RotateLeft32(x, -n)]. *)
Definition rotr (x n : Z) : Z :=
  Z.lor (Z.shiftr x n) (u32 (Z.shiftl x (32 - n))).

(** The round constants, four to a row. *)
Definition _K : list Z :=
  List.concat
    [ [0x428a2f98; 0x71374491; 0xb5c0fbcf; 0xe9b5dba5];
      [0x3956c25b; 0x59f111f1; 0x923f82a4; 0xab1c5ed5];
      [0xd807aa98; 0x12835b01; 0x243185be; 0x550c7dc3];
      [0x72be5d74; 0x80deb1fe; 0x9bdc06a7; 0xc19bf174];
      [0xe49b69c1; 0xefbe4786; 0x0fc19dc6; 0x240ca1cc];
      [0x2de92c6f; 0x4a7484aa; 0x5cb0a9dc; 0x76f988da];
      [0x983e5152; 0xa831c66d; 0xb00327c8; 0xbf597fc7];
      [0xc6e00bf3; 0xd5a79147; 0x06ca6351; 0x14292967];
      [0x27b70a85; 0x2e1b2138; 0x4d2c6dfc; 0x53380d13];
      [0x650a7354; 0x766a0abb; 0x81c2c92e; 0x92722c85];
      [0xa2bfe8a1; 0xa81a664b; 0xc24b8b70; 0xc76c51a3];
      [0xd192e819; 0xd6990624; 0xf40e3585; 0x106aa070];
      [0x19a4c116; 0x1e376c08; 0x2748774c; 0x34b0bcb5];
      [0x391c0cb3; 0x4ed8aa4a; 0x5b9cca4f; 0x682e6ff3];
      [0x748f82ee; 0x78a5636f; 0x84c87814; 0x8cc70208];
      [0x90befffa; 0xa4506ceb; 0xbef9a3f7; 0xc67178f2] ].

(** The eight chaining words [h[0..7]] of a digest. *)
Definition state : Type := (Z * Z * Z * Z * Z * Z * Z * Z)%type.

Definition init : state :=
  (0x6a09e667, 0xbb67ae85, 0x3c6ef372, 0xa54ff53a,
   0x510e527f, 0x9b05688c, 0x1f83d9ab, 0x5be0cd19).

(** The big-endian 32-bit words of a chunk. *)
Fixpoint words (p : list Z) : list Z :=
  match p with
  | b0 :: b1 :: b2 :: b3 :: p' =>
      Z.lor (Z.lor (Z.lor (Z.shiftl b0 24) (Z.shiftl b1 16)) (Z.shiftl b2 8)) b3
      :: words p'
  | _ => []
  end.

(** The message schedule, kept with [w[i-1]] in front: [n] more words. *)
Fixpoint schedule (n : nat) (w : list Z) : list Z :=
  match n with
  | O => w
  | S n' =>
      let v1 := nth 1 w 0 in
      let t1 := Z.lxor (Z.lxor (rotr v1 17) (rotr v1 19)) (Z.shiftr v1 10) in
      let v2 := nth 14 w 0 in
      let t2 := Z.lxor (Z.lxor (rotr v2 7) (rotr v2 18)) (Z.shiftr v2 3) in
      schedule n' (u32 (t1 + nth 6 w 0 + t2 + nth 15 w 0) :: w)
  end.

Definition round (s : state) (kw : Z * Z) : state :=
  let '(a, b, c, d, e, f, g, h) := s in
  let '(k, w) := kw in
  let t1 := h + Z.lxor (Z.lxor (rotr e 6) (rotr e 11)) (rotr e 25)
              + Z.lxor (Z.land e f) (Z.land (Z.lxor e 0xffffffff) g) + k + w in
  let t2 := Z.lxor (Z.lxor (rotr a 2) (rotr a 13)) (rotr a 22)
            + Z.lxor (Z.lxor (Z.land a b) (Z.land a c)) (Z.land b c) in
  (u32 (t1 + t2), a, b, c, u32 (d + t1), e, f, g).

(** [blockGeneric] on one 64-byte chunk. *)
Definition block (s : state) (chunk : list Z) : state :=
  let w := rev (schedule 48 (rev (words chunk))) in
  let '(a, b, c, d, e, f, g, h) := fold_left round (combine _K w) s in
  let '(h0, h1, h2, h3, h4, h5, h6, h7) := s in
  (u32 (h0 + a), u32 (h1 + b), u32 (h2 + c), u32 (h3 + d),
   u32 (h4 + e), u32 (h5 + f), u32 (h6 + g), u32 (h7 + h)).

Fixpoint blocks (fuel : nat) (s : state) (p : list Z) : state :=
  match fuel with
  | O => s
  | S fuel' =>
      if (List.length p <? 64)%nat then s
      else blocks fuel' (block s (firstn 64 p)) (skipn 64 p)
  end.

Definition be32 (x : Z) : list Z :=
  [Z.shiftr x 24; Z.land (Z.shiftr x 16) 255; Z.land (Z.shiftr x 8) 255;
   Z.land x 255].

Definition be64 (x : Z) : list Z :=
  (be32 (Z.shiftr x 32) ++ be32 (u32 x))%list.

(** The padding of [checkSum]: 0x80, zeros up to 56 modulo 64, then the
    List.length in bits on 8 bytes. *)
Definition padding (len : Z) : list Z :=
  let t := if len mod 64 <? 56 then 56 - len mod 64
           else 64 + 56 - len mod 64 in
  (0x80 :: repeat 0 (Z.to_nat (t - 1)) ++ be64 (Z.shiftl len 3 mod 2 ^ 64))%list.

(** [sha256.Sum256]: the 32 bytes of the digest. *)
Definition Sum256 (data : list Z) : list Z :=
  let p := (data ++ padding (Z.of_nat (List.length data)))%list in
  let '(h0, h1, h2, h3, h4, h5, h6, h7) := blocks (List.length p) init p in
  (be32 h0 ++ be32 h1 ++ be32 h2 ++ be32 h3
   ++ be32 h4 ++ be32 h5 ++ be32 h6 ++ be32 h7)%list.

Definition BlockSize : nat := 64.

End sha256.

(** ** Package crypto/hmac (RFC 2104) *)

Module hmac.

(** [hmac.New(sha256.New, key)], [Write(data)], [Sum(nil)]. *)
Definition Sum (key data : list Z) : list Z :=
  let key' := if (sha256.BlockSize <? List.length key)%nat
              then sha256.Sum256 key else key in
  let padded :=
    (key' ++ repeat 0 (sha256.BlockSize - List.length key'))%list in
  let ipad := map (fun b => Z.lxor b 0x36) padded in
  let opad := map (fun b => Z.lxor b 0x5c) padded in
  sha256.Sum256 (opad ++ sha256.Sum256 (ipad ++ data))%list.

End hmac.

(** ** Package encoding/hex *)

Module hex.

Definition hextable : string := "0123456789abcdef".

Definition digit (n : Z) : ascii :=
  match String.get (Z.to_nat n) hextable with
  | Some c => c
  | None => "0"%char
  end.

(** [hex.EncodeToString]: two lower-case digits per byte. *)
Fixpoint EncodeToString (src : list Z) : string :=
  match src with
  | [] => EmptyString
  | v :: src' =>
      String (digit (Z.shiftr v 4))
        (String (digit (Z.land v 0x0f)) (EncodeToString src'))
  end.

End hex.

(** ** Package crypto/subtle *)

Module subtle.

(** [ConstantTimeByteEq]: 1 if [x = y], else 0, computed on uint32 without a
    branch. *)
Definition ConstantTimeByteEq (x y : Z) : Z :=
  Z.shiftr ((Z.lxor x y - 1) mod 2 ^ 32) 31.

(** The loop [for i := 0; i < len(x); i++ { v |= x[i] ^ y[i] }]: the final
    [v]. *)
Fixpoint accumulate (x y : list Z) (v : Z) : Z :=
  match x, y with
  | xi :: x', yi :: y' => accumulate x' y' (Z.lor v (Z.lxor xi yi))
  | _, _ => v
  end.

(** [subtle.ConstantTimeCompare(x, y)]: 0 for slices of different lengths,
    else [ConstantTimeByteEq(v, 0)] for the [v] of the loop. *)
Definition ConstantTimeCompare (x y : list byte) : Z :=
  if negb (List.length x =? List.length y)%nat then 0
  else ConstantTimeByteEq (accumulate (octets x) (octets y) 0) 0.

End subtle.

(** ** Errors (errors.go) *)

(** The sentinel errors of the package, one per [errors.New]. *)
Inductive sentinel : Set :=
| InvalidAPIToken
| InvalidRequest
| Unauthorized
| Validation
| RateLimited
| ServerError
| Timeout
| InvalidWebhookSignature
| WebhookTimestampExpired.

(** The errors of [json.Unmarshal]; none of them wraps another error. *)
Inductive json_error : Set :=
| SyntaxError (msg : string) (Offset : Z)
| UnmarshalTypeError (Value Field : string) (Offset : Z).

(** An error value: a sentinel, an error of encoding/json, or the result of
    [fmt.Errorf] with one [%w] operand [wrapped] and the other operands
    [args]. *)
Inductive error : Set :=
| New (s : sentinel)
| JSONError (e : json_error)
| Errorf (format : string) (wrapped : error) (args : list Z).

Definition ErrInvalidWebhookSignature : error := New InvalidWebhookSignature.
Definition ErrWebhookTimestampExpired : error := New WebhookTimestampExpired.

Definition sentinel_eqb (a b : sentinel) : bool :=
  match a, b with
  | InvalidAPIToken, InvalidAPIToken
  | InvalidRequest, InvalidRequest
  | Unauthorized, Unauthorized
  | Validation, Validation
  | RateLimited, RateLimited
  | ServerError, ServerError
  | Timeout, Timeout
  | InvalidWebhookSignature, InvalidWebhookSignature
  | WebhookTimestampExpired, WebhookTimestampExpired => true
  | _, _ => false
  end.

Module errors.

(** [errors.Is(err, target)]: [err] or an error it wraps is [target]. Two
    error values are identical only when they are the same sentinel: every
    [fmt.Errorf] and every error of encoding/json is a fresh value. *)
Fixpoint Is (err target : error) : bool :=
  match err with
  | New s => match target with New t => sentinel_eqb s t | _ => false end
  | JSONError _ => false
  | Errorf _ wrapped _ => Is wrapped target
  end.

End errors.

(** ** Types (types.go) *)

Record WebhookResponse : Set := {
  StatusCode : Z;
  Message : string
}.

Record WebhookEventData : Set := {
  MessageID : string;
  Recipient : string;
  Tag : string;
  Metadata : list (string * string);
  Response : option WebhookResponse
}.

Record WebhookEvent : Set := {
  ID : string;
  Event : string;
  Timestamp : Z;
  Data : WebhookEventData;
  RawPayload : list byte
}.

(** The assignment [event.RawPayload = payload]. *)
Definition set_RawPayload (event : WebhookEvent) (payload : list byte)
  : WebhookEvent :=
  {| ID := ID event; Event := Event event; Timestamp := Timestamp event;
     Data := Data event; RawPayload := payload |}.

(** ** 64-bit integers and durations *)

(** The value of an int64 computation whose exact result is [z]. *)
Definition wrap64 (z : Z) : Z := (z + 2 ^ 63) mod 2 ^ 64 - 2 ^ 63.

Definition int64 (z : Z) : Prop := - 2 ^ 63 <= z < 2 ^ 63.

Module time.
Definition Second : Z := 1000000000.
Definition Minute : Z := 60 * Second.
End time.

Definition DefaultWebhookTolerance : Z := 5 * time.Minute.

(** ** Calls and results *)

(** The calls [VerifyWebhook] makes, with their arguments. *)
Inductive call : Set :=
| CallParseSignature (signature : string)
| CallTimeNow
| CallComputeHMAC (data : list byte) (secret : string)
| CallSecureCompare (a b : string)
| CallUnmarshal (payload : list byte).

(** A computation that makes calls in order and returns a value or an
    error. *)
Definition M (A : Type) : Type := (list call * (A + error))%type.

Definition ret {A} (a : A) : M A := ([], inl a).

Definition throw {A} (e : error) : M A := ([], inr e).

Definition bind {A B} (m : M A) (k : A -> M B) : M B :=
  match m with
  | (l, inl a) => let '(l', r) := k a in ((l ++ l')%list, r)
  | (l, inr e) => (l, inr e)
  end.

(** The call [c], whose result is [r]. *)
Definition invoke {A} (c : call) (r : A + error) : M A := ([c], r).

Notation "x <- m ;; k" := (bind m (fun x => k))
  (at level 61, m at next level, right associativity).
Notation "' p <- m ;; k" := (bind m (fun x => let 'p := x in k))
  (at level 61, p pattern, m at next level, right associativity).

(** The calls made, and the two results of the Go function: the event (nil
    or not) and the error (nil or not). *)
Definition calls {A} (m : M A) : list call := fst m.

Definition event_of {A} (m : M A) : option A :=
  match snd m with inl a => Some a | inr _ => None end.

Definition error_of {A} (m : M A) : option error :=
  match snd m with inl _ => None | inr e => Some e end.

(** ** The webhook verifier (webhook.go) *)

(** The loop of [parseSignature] over the comma-separated parts, with the
    named results [timestamp] and [hash] as accumulators. *)
Fixpoint parseParts (parts : list string) (timestamp : Z) (hash : string)
  : (Z * string) + error :=
  match parts with
  | [] => inl (timestamp, hash)
  | part :: parts' =>
      match strings.SplitN2 part "=" with
      | [k; v] =>
          let key := strings.TrimSpace k in
          let value := strings.TrimSpace v in
          if (key =? "t")%string then
            match strconv.ParseInt value with
            | Some timestamp' => parseParts parts' timestamp' hash
            | None =>
                inr (Errorf "%w: invalid timestamp in signature"
                            ErrInvalidWebhookSignature [])
            end
          else if (key =? "v1")%string then parseParts parts' timestamp value
          else parseParts parts' timestamp hash
      | _ => parseParts parts' timestamp hash
      end
  end.

Definition parseSignature (signature : string) : (Z * string) + error :=
  let parts := strings.Split signature "," in
  if (List.length parts <? 2)%nat then
    inr (Errorf
           "%w: invalid signature format, expected t={timestamp},v1={hash}"
           ErrInvalidWebhookSignature [])
  else
    match parseParts parts 0 "" with
    | inr e => inr e
    | inl (timestamp, hash) =>
        if timestamp =? 0 then
          inr (Errorf "%w: missing timestamp (t=) in signature"
                      ErrInvalidWebhookSignature [])
        else if (hash =? "")%string then
          inr (Errorf "%w: missing hash (v1=) in signature"
                      ErrInvalidWebhookSignature [])
        else inl (timestamp, hash)
    end.

Definition computeHMAC (data : list byte) (secret : string) : string :=
  hex.EncodeToString
    (hmac.Sum (octets (list_byte_of_string secret)) (octets data)).

Definition secureCompare (a b : string) : bool :=
  subtle.ConstantTimeCompare
    (list_byte_of_string a) (list_byte_of_string b) =? 1.

(** [fmt.Sprintf("%d.%s", sigTimestamp, string(payload))]. *)
Definition signedPayload (sigTimestamp : Z) (payload : list byte) : string :=
  (strconv.FormatInt sigTimestamp ++ "." ++ string_of_list_byte payload)%string.

Section Verifier.

(** [json.Unmarshal(payload, &event)] on a zero [WebhookEvent]: the event
    filled in, or the error. *)
Variable json_Unmarshal : list byte -> WebhookEvent + json_error.

Definition VerifyWebhook (now : Z) (signature : string) (payload : list byte)
    (deliveryTimestamp : Z) (signingSecret : string) (tolerance : Z)
  : M WebhookEvent :=
  if (signingSecret =? "")%string then
    throw (Errorf "%w: signing secret is required"
                  ErrInvalidWebhookSignature [])
  else if (signature =? "")%string then
    throw (Errorf "%w: signature is required" ErrInvalidWebhookSignature [])
  else
    ' (sigTimestamp, sigHash) <-
        invoke (CallParseSignature signature) (parseSignature signature) ;;
    if negb (deliveryTimestamp =? 0)
       && negb (deliveryTimestamp =? sigTimestamp) then
      throw (Errorf
               "%w: timestamp mismatch between signature and delivery headers"
               ErrInvalidWebhookSignature [])
    else
      now <- invoke CallTimeNow (inl now) ;;
      let diff := wrap64 (now - sigTimestamp) in
      let diff := if diff <? 0 then wrap64 (- diff) else diff in
      if wrap64 (diff * time.Second) >? tolerance then
        throw (Errorf "%w: timestamp %d is %d seconds old (tolerance: %v)"
                      ErrWebhookTimestampExpired
                      [sigTimestamp; diff; tolerance])
      else
        let data := list_byte_of_string (signedPayload sigTimestamp payload) in
        expectedHash <-
          invoke (CallComputeHMAC data signingSecret)
                 (inl (computeHMAC data signingSecret)) ;;
        equal <-
          invoke (CallSecureCompare sigHash expectedHash)
                 (inl (secureCompare sigHash expectedHash)) ;;
        if negb equal then
          throw (Errorf "%w: signature verification failed"
                        ErrInvalidWebhookSignature [])
        else
          event <-
            invoke (CallUnmarshal payload)
                   (match json_Unmarshal payload with
                    | inl event => inl event
                    | inr err =>
                        inr (Errorf "failed to parse webhook payload: %w"
                                    (JSONError err) [])
                    end) ;;
          ret (set_RawPayload event payload).

End Verifier.

(** ** Vocabulary of the properties *)

(** The age [diff] that [VerifyWebhook] computes from the clock and the
    token, and its tolerance test. *)
Definition age (now sigTimestamp : Z) : Z :=
  let diff := wrap64 (now - sigTimestamp) in
  if diff <? 0 then wrap64 (- diff) else diff.

Definition expired (now sigTimestamp tolerance : Z) : bool :=
  wrap64 (age now sigTimestamp * time.Second) >? tolerance.

(** The errors of the gates of [VerifyWebhook]. *)
Definition errSecretRequired : error :=
  Errorf "%w: signing secret is required" ErrInvalidWebhookSignature [].
Definition errSignatureRequired : error :=
  Errorf "%w: signature is required" ErrInvalidWebhookSignature [].
Definition errTimestampMismatch : error :=
  Errorf "%w: timestamp mismatch between signature and delivery headers"
         ErrInvalidWebhookSignature [].
Definition errExpired (sigTimestamp diff tolerance : Z) : error :=
  Errorf "%w: timestamp %d is %d seconds old (tolerance: %v)"
         ErrWebhookTimestampExpired [sigTimestamp; diff; tolerance].
Definition errVerificationFailed : error :=
  Errorf "%w: signature verification failed" ErrInvalidWebhookSignature [].
Definition errPayload (e : json_error) : error :=
  Errorf "failed to parse webhook payload: %w" (JSONError e) [].

(** The hash the verifier expects for a timestamp, a payload and a secret. *)
Definition expectedHash (sigTimestamp : Z) (payload : list byte)
    (signingSecret : string) : string :=
  computeHMAC (list_byte_of_string (signedPayload sigTimestamp payload))
              signingSecret.

(** The calls of a run that reaches the comparison of the hashes. *)
Definition callsToCompare (signature : string) (sigTimestamp : Z)
    (sigHash : string) (payload : list byte) (signingSecret : string)
  : list call :=
  [ CallParseSignature signature; CallTimeNow;
    CallComputeHMAC
      (list_byte_of_string (signedPayload sigTimestamp payload)) signingSecret;
    CallSecureCompare sigHash (expectedHash sigTimestamp payload signingSecret) ].

(** The eight ways a call of [VerifyWebhook] ends, gate by gate. *)
Inductive Outcome (json_Unmarshal : list byte -> WebhookEvent + json_error)
    (now : Z) (signature : string) (payload : list byte)
    (deliveryTimestamp : Z) (signingSecret : string) (tolerance : Z)
  : M WebhookEvent -> Prop :=
| EndsNoSecret :
    signingSecret = "" ->
    Outcome json_Unmarshal now signature payload deliveryTimestamp
            signingSecret tolerance
            ([], inr errSecretRequired)
| EndsNoSignature :
    signingSecret <> "" -> signature = "" ->
    Outcome json_Unmarshal now signature payload deliveryTimestamp
            signingSecret tolerance
            ([], inr errSignatureRequired)
| EndsMalformed e :
    signingSecret <> "" -> signature <> "" ->
    parseSignature signature = inr e ->
    Outcome json_Unmarshal now signature payload deliveryTimestamp
            signingSecret tolerance
            ([CallParseSignature signature], inr e)
| EndsMismatch ts h :
    signingSecret <> "" -> signature <> "" ->
    parseSignature signature = inl (ts, h) ->
    deliveryTimestamp <> 0 -> deliveryTimestamp <> ts ->
    Outcome json_Unmarshal now signature payload deliveryTimestamp
            signingSecret tolerance
            ([CallParseSignature signature], inr errTimestampMismatch)
| EndsExpired ts h :
    signingSecret <> "" -> signature <> "" ->
    parseSignature signature = inl (ts, h) ->
    deliveryTimestamp = 0 \/ deliveryTimestamp = ts ->
    expired now ts tolerance = true ->
    Outcome json_Unmarshal now signature payload deliveryTimestamp
            signingSecret tolerance
            ([CallParseSignature signature; CallTimeNow],
             inr (errExpired ts (age now ts) tolerance))
| EndsBadHash ts h :
    signingSecret <> "" -> signature <> "" ->
    parseSignature signature = inl (ts, h) ->
    deliveryTimestamp = 0 \/ deliveryTimestamp = ts ->
    expired now ts tolerance = false ->
    secureCompare h (expectedHash ts payload signingSecret) = false ->
    Outcome json_Unmarshal now signature payload deliveryTimestamp
            signingSecret tolerance
            (callsToCompare signature ts h payload signingSecret,
             inr errVerificationFailed)
| EndsBadPayload ts h e :
    signingSecret <> "" -> signature <> "" ->
    parseSignature signature = inl (ts, h) ->
    deliveryTimestamp = 0 \/ deliveryTimestamp = ts ->
    expired now ts tolerance = false ->
    secureCompare h (expectedHash ts payload signingSecret) = true ->
    json_Unmarshal payload = inr e ->
    Outcome json_Unmarshal now signature payload deliveryTimestamp
            signingSecret tolerance
            ((callsToCompare signature ts h payload signingSecret
                ++ [CallUnmarshal payload])%list,
             inr (errPayload e))
| EndsVerified ts h event :
    signingSecret <> "" -> signature <> "" ->
    parseSignature signature = inl (ts, h) ->
    deliveryTimestamp = 0 \/ deliveryTimestamp = ts ->
    expired now ts tolerance = false ->
    secureCompare h (expectedHash ts payload signingSecret) = true ->
    json_Unmarshal payload = inl event ->
    Outcome json_Unmarshal now signature payload deliveryTimestamp
            signingSecret tolerance
            ((callsToCompare signature ts h payload signingSecret
                ++ [CallUnmarshal payload])%list,
             inl (set_RawPayload event payload)).

(** [generateTestSignature] of webhook_test.go: the token
    [t=<timestamp>,v1=<hex HMAC of "<timestamp>.<payload>">]. *)
Definition generateTestSignature (payload : string) (secret : string)
    (timestamp : Z) : string :=
  let signedPayload :=
    (strconv.FormatInt timestamp ++ "." ++ payload)%string in
  let hash :=
    hex.EncodeToString
      (hmac.Sum (octets (list_byte_of_string secret))
                (octets (list_byte_of_string signedPayload))) in
  ("t=" ++ strconv.FormatInt timestamp ++ ",v1=" ++ hash)%string.

(** The fields of a token as the contract of the parser describes them: for
    every comma-separated segment with an [=], the text before and after the
    first [=], trimmed of surrounding white space. *)
Definition fieldOf (part : string) : list (string * string) :=
  match strings.Cut part "=" with
  | Some (k, v) => [(strings.TrimSpace k, strings.TrimSpace v)]
  | None => []
  end.

Definition fields (signature : string) : list (string * string) :=
  flat_map fieldOf (strings.Split signature ",").

(** The values given to [key], in order, and the one that counts: the last. *)
Definition valuesOf (key : string) (fs : list (string * string))
  : list string :=
  map snd (filter (fun kv => (fst kv =? key)%string) fs).

Definition valueOf (key : string) (fs : list (string * string))
  : option string :=
  last (map Some (valuesOf key fs)) None.

(** The four reasons for which a token is malformed. *)
Definition TooFewSegments (signature : string) : Prop :=
  (List.length (strings.Split signature ",") < 2)%nat.

Definition BadTimestamp (signature : string) : Prop :=
  exists v, In v (valuesOf "t" (fields signature))
            /\ strconv.ParseInt v = None.

Definition NoTimestamp (signature : string) : Prop :=
  valueOf "t" (fields signature) = None
  \/ exists v, valueOf "t" (fields signature) = Some v
               /\ strconv.ParseInt v = Some 0.

Definition NoHash (signature : string) : Prop :=
  valueOf "v1" (fields signature) = None
  \/ valueOf "v1" (fields signature) = Some "".

(** A property of every character of a string. *)
Fixpoint string_forall (P : ascii -> bool) (s : string) : bool :=
  match s with
  | EmptyString => true
  | String c s' => P c && string_forall P s'
  end.

(** A character that can stand in a value of a token: ASCII, no white space,
    no comma. *)
Definition tokenChar (c : ascii) : bool :=
  let b := byteZ c in
  (b <? 128) && negb (strings.asciiSpace b) && negb (b =? 44).

Definition notComma (c : ascii) : bool := negb (Ascii.eqb c ",").

(** A decimal digit. *)
Definition digitChar (c : ascii) : bool :=
  (48 <=? byteZ c) && (byteZ c <=? 57).

(** The values of a byte. *)
Definition byteRange (z : Z) : Prop := 0 <= z < 256.

(** A decoder to run the verifier on closed examples. It is encoding/json
    on the two payloads of these examples: [{}] decodes to the zero event
    without an error, [invalid json] is a syntax error at its first byte
    (and so is, here, every other payload). *)
Definition zeroEvent : WebhookEvent :=
  {| ID := ""; Event := ""; Timestamp := 0;
     Data := {| MessageID := ""; Recipient := ""; Tag := ""; Metadata := [];
                Response := None |};
     RawPayload := [] |}.

Definition sampleUnmarshal (payload : list byte) : WebhookEvent + json_error :=
  if (string_of_list_byte payload =? "{}")%string then inl zeroEvent
  else inr (SyntaxError
              "invalid character 'i' looking for beginning of value" 1).

(** ** The request adapter (webhook.go) *)

Definition HeaderSignature : string := "X-Lettermint-Signature".
Definition HeaderDelivery : string := "X-Lettermint-Delivery".

(** An error of [io.ReadAll]. *)
Inductive io_error : Set :=
| ErrUnexpectedEOF
| ReadError (msg : string).

Module http.

(** What a handler observes of a request it receives: the method, the value
    [r.Header.Get(key)] of each header ([""] when absent) and the result of
    [io.ReadAll(r.Body)]. *)
Record Request : Set := {
  Method : string;
  Header_Get : string -> string;
  Body : list byte + io_error
}.

Definition MethodPost : string := "POST".

Definition StatusOK : Z := 200.
Definition StatusBadRequest : Z := 400.
Definition StatusUnauthorized : Z := 401.
Definition StatusMethodNotAllowed : Z := 405.

End http.

(** The errors of [VerifyWebhookFromRequest]: its own three, and those of
    [VerifyWebhook]. *)
Inductive request_error : Set :=
| ErrorfMissingHeader (name : string)
    (* fmt.Errorf("%w: missing %s header", ErrInvalidWebhookSignature, name) *)
| ErrorfInvalidHeader (name : string)
    (* fmt.Errorf("%w: invalid %s header value", ErrInvalidWebhookSignature,
       name) *)
| ErrorfReadBody (cause : io_error)
    (* fmt.Errorf("failed to read request body: %w", err) *)
| OfVerifyWebhook (e : error).

(** [errors.Is] on an error of the adapter; an error of package io wraps no
    sentinel of this package. *)
Definition request_Is (e : request_error) (target : error) : bool :=
  match e with
  | ErrorfMissingHeader _ | ErrorfInvalidHeader _ =>
      errors.Is ErrInvalidWebhookSignature target
  | ErrorfReadBody _ => false
  | OfVerifyWebhook e' => errors.Is e' target
  end.

(** The calls of the adapter: the read of the body, then those of
    [VerifyWebhook]. *)
Inductive request_call : Set :=
| CallReadAll
| CallOfVerifyWebhook (c : call).

Section Adapter.

Variable json_Unmarshal : list byte -> WebhookEvent + json_error.

Definition VerifyWebhookFromRequest (now : Z) (r : http.Request)
    (signingSecret : string) (tolerance : Z)
  : list request_call * (WebhookEvent + request_error) :=
  let signature := http.Header_Get r HeaderSignature in
  if (signature =? "")%string then
    ([], inr (ErrorfMissingHeader HeaderSignature))
  else
    let deliveryHeader := http.Header_Get r HeaderDelivery in
    match (if (deliveryHeader =? "")%string then Some 0
           else strconv.ParseInt deliveryHeader) with
    | None => ([], inr (ErrorfInvalidHeader HeaderDelivery))
    | Some deliveryTimestamp =>
        match http.Body r with
        | inr err => ([CallReadAll], inr (ErrorfReadBody err))
        | inl payload =>
            let '(l, res) :=
              VerifyWebhook json_Unmarshal now signature payload
                            deliveryTimestamp signingSecret tolerance in
            (CallReadAll :: map CallOfVerifyWebhook l,
             match res with
             | inl event => inl event
             | inr e => inr (OfVerifyWebhook e)
             end)
        end
    end.

End Adapter.

(** A request that carries a signature header, a delivery header and a
    body. *)
Definition webhookRequest (signature delivery : string) (body : list byte)
  : http.Request :=
  {| http.Method := http.MethodPost;
     http.Header_Get := fun key =>
       if (key =? HeaderSignature)%string then signature
       else if (key =? HeaderDelivery)%string then delivery
       else "";
     http.Body := inl body |}.

(** A digit of lower-case hexadecimal. *)
Definition lowerHex (c : ascii) : bool :=
  let b := byteZ c in
  ((48 <=? b) && (b <=? 57)) || ((97 <=? b) && (b <=? 102)).

(** ** API errors (errors.go) *)

Definition ErrInvalidAPIToken : error := New InvalidAPIToken.
Definition ErrInvalidRequest : error := New InvalidRequest.
Definition ErrUnauthorized : error := New Unauthorized.
Definition ErrValidation : error := New Validation.
Definition ErrRateLimited : error := New RateLimited.
Definition ErrServerError : error := New ServerError.
Definition ErrTimeout : error := New Timeout.

Module APIError.

Record t : Set := {
  StatusCode : Z;
  Message : string;
  ErrorType : string;
  Errors : list (string * list string);
  ResponseBody : string
}.

(** The method [Error]. *)
Definition Error (e : t) : string :=
  if negb (ErrorType e =? "")%string then
    ("lettermint: API error (" ++ strconv.FormatInt (StatusCode e) ++ "): "
       ++ Message e ++ " [" ++ ErrorType e ++ "]")%string
  else
    ("lettermint: API error (" ++ strconv.FormatInt (StatusCode e) ++ "): "
       ++ Message e)%string.

(** The method [Unwrap]: the sentinel of the status code, or nil. *)
Definition Unwrap (e : t) : option error :=
  if StatusCode e =? 400 then Some ErrInvalidRequest
  else if StatusCode e =? 401 then Some ErrUnauthorized
  else if StatusCode e =? 422 then Some ErrValidation
  else if StatusCode e =? 429 then Some ErrRateLimited
  else if 500 <=? StatusCode e then Some ErrServerError
  else None.

(** [errors.Is(e, target)] for a [*APIError] [e]: [e] itself is no sentinel,
    so the answer is that of the error it unwraps to. *)
Definition Is (e : t) (target : error) : bool :=
  match Unwrap e with
  | Some err => errors.Is err target
  | None => false
  end.

End APIError.

(** ** Email payloads and API error responses (types.go) *)

Module apiErrorResponse.
Record t : Set := {
  Message : string;
  Error : string;
  ErrorType : string;
  Errors : list (string * list string)
}.
End apiErrorResponse.

Section ParseAPIError.

(** [json.Unmarshal(body, &errResp)] on a zero [apiErrorResponse], and
    [http.StatusText]. *)
Variable json_Unmarshal_apiErrorResponse :
  list byte -> apiErrorResponse.t + json_error.
Variable http_StatusText : Z -> string.

(** [parseAPIError] (email.go). *)
Definition parseAPIError (statusCode : Z) (body : list byte) : APIError.t :=
  let apiErr :=
    match json_Unmarshal_apiErrorResponse body with
    | inl errResp =>
        {| APIError.StatusCode := statusCode;
           APIError.Message :=
             if negb (apiErrorResponse.Message errResp =? "")%string
             then apiErrorResponse.Message errResp
             else if negb (apiErrorResponse.Error errResp =? "")%string
                  then apiErrorResponse.Error errResp
                  else "";
           APIError.ErrorType := apiErrorResponse.ErrorType errResp;
           APIError.Errors := apiErrorResponse.Errors errResp;
           APIError.ResponseBody := string_of_list_byte body |}
    | inr _ =>
        {| APIError.StatusCode := statusCode;
           APIError.Message := string_of_list_byte body;
           APIError.ErrorType := "";
           APIError.Errors := [];
           APIError.ResponseBody := string_of_list_byte body |}
    end in
  if (APIError.Message apiErr =? "")%string then
    {| APIError.StatusCode := APIError.StatusCode apiErr;
       APIError.Message := http_StatusText statusCode;
       APIError.ErrorType := APIError.ErrorType apiErr;
       APIError.Errors := APIError.Errors apiErr;
       APIError.ResponseBody := APIError.ResponseBody apiErr |}
  else apiErr.

End ParseAPIError.

(** The error of the decoder on a payload, if it has one. *)
Definition json_error_of (U : list byte -> WebhookEvent + json_error)
    (payload : list byte) : option json_error :=
  match U payload with
  | inl _ => None
  | inr e => Some e
  end.

(** ** Go maps keyed by strings *)

Module gomap.

(** The entries of a map, their keys distinct. *)
Definition t (V : Type) : Type := list (string * V).

Definition lookup {V : Type} (m : t V) (k : string) : option V :=
  match find (fun kv => (fst kv =? k)%string) m with
  | Some kv => Some (snd kv)
  | None => None
  end.

Definition delete {V : Type} (m : t V) (k : string) : t V :=
  filter (fun kv => negb (fst kv =? k)%string) m.

(** The assignment [m[k] = v]. *)
Definition store {V : Type} (m : t V) (k : string) (v : V) : t V :=
  (k, v) :: delete m k.

Definition len {V : Type} (m : t V) : nat := List.length m.

Definition keys {V : Type} (m : t V) : list string := map fst m.

(** The loop [for k, v := range src { m[k] = v }], the entries of [src]
    visited in the order of the list. *)
Definition storeAll {V : Type} (m : t V) (src : list (string * V)) : t V :=
  fold_left (fun acc kv => store acc (fst kv) (snd kv)) src m.

End gomap.

(** ** The client (lettermint.go, options.go) *)

Definition DefaultBaseURL : string := "https://api.lettermint.co/v1".
Definition DefaultTimeout : Z := 30 * time.Second.
Definition Version : string := "1.0.0".

Module httpClient.
(** An [http.Client]: its timeout, and [Transport] for the fields that this
    package neither reads nor writes. *)
Record t : Set := {
  Transport : nat;
  Timeout : Z
}.
End httpClient.

(** The [http.Client] objects allocated so far; a pointer is an index, and
    [None] is the nil pointer. *)
Definition Heap : Set := list httpClient.t.

Definition deref (h : Heap) (p : nat) : option httpClient.t := nth_error h p.

Fixpoint assign (h : Heap) (p : nat) (c : httpClient.t) : Heap :=
  match h, p with
  | [], _ => []
  | _ :: h', O => c :: h'
  | x :: h', S p' => x :: assign h' p' c
  end.

Definition alloc (h : Heap) (c : httpClient.t) : Heap * nat :=
  ((h ++ [c])%list, List.length h).

Module Client.

Record t : Set := {
  apiToken : string;
  baseURL : string;
  httpClient : option nat
}.

(** An [Option]: a function on the client under construction, here with
    the heap it can write to; [None] is the panic of a nil dereference. *)
Definition Option : Set := Heap * t -> option (Heap * t).

Definition WithBaseURL (baseURL' : string) : Option :=
  fun '(h, c) =>
    Some (h, {| apiToken := apiToken c; baseURL := baseURL';
                httpClient := httpClient c |}).

Definition WithTimeout (timeout : Z) : Option :=
  fun '(h, c) =>
    match httpClient c with
    | None => None
    | Some p =>
        match deref h p with
        | None => None
        | Some hc =>
            Some (assign h p {| httpClient.Transport := httpClient.Transport hc;
                                httpClient.Timeout := timeout |}, c)
        end
    end.

Definition WithHTTPClient (client : option nat) : Option :=
  fun '(h, c) =>
    Some (h, {| apiToken := apiToken c; baseURL := baseURL c;
                httpClient := client |}).

(** The loop [for _, opt := range opts { opt(c) }]. *)
Fixpoint applyOptions (opts : list Option) (st : Heap * t)
  : option (Heap * t) :=
  match opts with
  | [] => Some st
  | opt :: opts' =>
      match opt st with
      | Some st' => applyOptions opts' st'
      | None => None
      end
  end.

(** [New]: the heap after the call and the client or the error; [None] when
    an option panics. *)
Definition New (apiToken' : string) (opts : list Option) (h : Heap)
  : option (Heap * (t + error)) :=
  if (apiToken' =? "")%string then Some (h, inr ErrInvalidAPIToken)
  else
    let '(h1, p) :=
      alloc h {| httpClient.Transport := 0;
                 httpClient.Timeout := DefaultTimeout |} in
    let c := {| apiToken := apiToken'; baseURL := DefaultBaseURL;
                httpClient := Some p |} in
    match applyOptions opts (h1, c) with
    | Some (h2, c') => Some (h2, inl c')
    | None => None
    end.

End Client.

(** ** The email builder (email.go, types.go) *)

Record SendResponse : Set := {
  SendResponse_MessageID : string;
  SendResponse_Status : string
}.

Record Attachment : Set := {
  Filename : string;
  Content : string;
  ContentID : string
}.

Module emailPayload.
Record t : Type := {
  From : string;
  To : list string;
  Subject : string;
  HTML : string;
  Text : string;
  CC : list string;
  BCC : list string;
  ReplyTo : list string;
  Headers : option (gomap.t string);
  Attachments : list Attachment;
  Route : string;
  Metadata : option (gomap.t string);
  Tag : string
}.
End emailPayload.

(** What [ctx.Err()] returns. *)
Inductive context_error : Set :=
| Canceled
| DeadlineExceeded.

Module EmailBuilder.

(** [ctx] is the value of [b.ctx.Err()] at the time [Send] asks for it. *)
Record t : Type := {
  client : Client.t;
  ctx : option context_error;
  payload : emailPayload.t;
  idempotencyKey : string
}.

Definition with_payload (b : t) (p : emailPayload.t) : t :=
  {| client := client b; ctx := ctx b; payload := p;
     idempotencyKey := idempotencyKey b |}.

Definition From (email : string) (b : t) : t :=
  let p := payload b in
  with_payload b
    {| emailPayload.From := email; emailPayload.To := emailPayload.To p;
       emailPayload.Subject := emailPayload.Subject p;
       emailPayload.HTML := emailPayload.HTML p;
       emailPayload.Text := emailPayload.Text p;
       emailPayload.CC := emailPayload.CC p;
       emailPayload.BCC := emailPayload.BCC p;
       emailPayload.ReplyTo := emailPayload.ReplyTo p;
       emailPayload.Headers := emailPayload.Headers p;
       emailPayload.Attachments := emailPayload.Attachments p;
       emailPayload.Route := emailPayload.Route p;
       emailPayload.Metadata := emailPayload.Metadata p;
       emailPayload.Tag := emailPayload.Tag p |}.

Definition To (emails : list string) (b : t) : t :=
  let p := payload b in
  with_payload b
    {| emailPayload.From := emailPayload.From p;
       emailPayload.To := (emailPayload.To p ++ emails)%list;
       emailPayload.Subject := emailPayload.Subject p;
       emailPayload.HTML := emailPayload.HTML p;
       emailPayload.Text := emailPayload.Text p;
       emailPayload.CC := emailPayload.CC p;
       emailPayload.BCC := emailPayload.BCC p;
       emailPayload.ReplyTo := emailPayload.ReplyTo p;
       emailPayload.Headers := emailPayload.Headers p;
       emailPayload.Attachments := emailPayload.Attachments p;
       emailPayload.Route := emailPayload.Route p;
       emailPayload.Metadata := emailPayload.Metadata p;
       emailPayload.Tag := emailPayload.Tag p |}.

Definition CC (emails : list string) (b : t) : t :=
  let p := payload b in
  with_payload b
    {| emailPayload.From := emailPayload.From p;
       emailPayload.To := emailPayload.To p;
       emailPayload.Subject := emailPayload.Subject p;
       emailPayload.HTML := emailPayload.HTML p;
       emailPayload.Text := emailPayload.Text p;
       emailPayload.CC := (emailPayload.CC p ++ emails)%list;
       emailPayload.BCC := emailPayload.BCC p;
       emailPayload.ReplyTo := emailPayload.ReplyTo p;
       emailPayload.Headers := emailPayload.Headers p;
       emailPayload.Attachments := emailPayload.Attachments p;
       emailPayload.Route := emailPayload.Route p;
       emailPayload.Metadata := emailPayload.Metadata p;
       emailPayload.Tag := emailPayload.Tag p |}.

Definition BCC (emails : list string) (b : t) : t :=
  let p := payload b in
  with_payload b
    {| emailPayload.From := emailPayload.From p;
       emailPayload.To := emailPayload.To p;
       emailPayload.Subject := emailPayload.Subject p;
       emailPayload.HTML := emailPayload.HTML p;
       emailPayload.Text := emailPayload.Text p;
       emailPayload.CC := emailPayload.CC p;
       emailPayload.BCC := (emailPayload.BCC p ++ emails)%list;
       emailPayload.ReplyTo := emailPayload.ReplyTo p;
       emailPayload.Headers := emailPayload.Headers p;
       emailPayload.Attachments := emailPayload.Attachments p;
       emailPayload.Route := emailPayload.Route p;
       emailPayload.Metadata := emailPayload.Metadata p;
       emailPayload.Tag := emailPayload.Tag p |}.

Definition ReplyTo (emails : list string) (b : t) : t :=
  let p := payload b in
  with_payload b
    {| emailPayload.From := emailPayload.From p;
       emailPayload.To := emailPayload.To p;
       emailPayload.Subject := emailPayload.Subject p;
       emailPayload.HTML := emailPayload.HTML p;
       emailPayload.Text := emailPayload.Text p;
       emailPayload.CC := emailPayload.CC p;
       emailPayload.BCC := emailPayload.BCC p;
       emailPayload.ReplyTo := (emailPayload.ReplyTo p ++ emails)%list;
       emailPayload.Headers := emailPayload.Headers p;
       emailPayload.Attachments := emailPayload.Attachments p;
       emailPayload.Route := emailPayload.Route p;
       emailPayload.Metadata := emailPayload.Metadata p;
       emailPayload.Tag := emailPayload.Tag p |}.

Definition Subject (subject : string) (b : t) : t :=
  let p := payload b in
  with_payload b
    {| emailPayload.From := emailPayload.From p;
       emailPayload.To := emailPayload.To p; emailPayload.Subject := subject;
       emailPayload.HTML := emailPayload.HTML p;
       emailPayload.Text := emailPayload.Text p;
       emailPayload.CC := emailPayload.CC p;
       emailPayload.BCC := emailPayload.BCC p;
       emailPayload.ReplyTo := emailPayload.ReplyTo p;
       emailPayload.Headers := emailPayload.Headers p;
       emailPayload.Attachments := emailPayload.Attachments p;
       emailPayload.Route := emailPayload.Route p;
       emailPayload.Metadata := emailPayload.Metadata p;
       emailPayload.Tag := emailPayload.Tag p |}.

Definition HTML (html : string) (b : t) : t :=
  let p := payload b in
  with_payload b
    {| emailPayload.From := emailPayload.From p;
       emailPayload.To := emailPayload.To p;
       emailPayload.Subject := emailPayload.Subject p;
       emailPayload.HTML := html; emailPayload.Text := emailPayload.Text p;
       emailPayload.CC := emailPayload.CC p;
       emailPayload.BCC := emailPayload.BCC p;
       emailPayload.ReplyTo := emailPayload.ReplyTo p;
       emailPayload.Headers := emailPayload.Headers p;
       emailPayload.Attachments := emailPayload.Attachments p;
       emailPayload.Route := emailPayload.Route p;
       emailPayload.Metadata := emailPayload.Metadata p;
       emailPayload.Tag := emailPayload.Tag p |}.

Definition Text (text : string) (b : t) : t :=
  let p := payload b in
  with_payload b
    {| emailPayload.From := emailPayload.From p;
       emailPayload.To := emailPayload.To p;
       emailPayload.Subject := emailPayload.Subject p;
       emailPayload.HTML := emailPayload.HTML p; emailPayload.Text := text;
       emailPayload.CC := emailPayload.CC p;
       emailPayload.BCC := emailPayload.BCC p;
       emailPayload.ReplyTo := emailPayload.ReplyTo p;
       emailPayload.Headers := emailPayload.Headers p;
       emailPayload.Attachments := emailPayload.Attachments p;
       emailPayload.Route := emailPayload.Route p;
       emailPayload.Metadata := emailPayload.Metadata p;
       emailPayload.Tag := emailPayload.Tag p |}.

(** The map behind a field that may be nil: [make] when it is. *)
Definition made (m : option (gomap.t string)) : gomap.t string :=
  match m with
  | Some m' => m'
  | None => []
  end.

Definition Header (key value : string) (b : t) : t :=
  let p := payload b in
  with_payload b
    {| emailPayload.From := emailPayload.From p;
       emailPayload.To := emailPayload.To p;
       emailPayload.Subject := emailPayload.Subject p;
       emailPayload.HTML := emailPayload.HTML p;
       emailPayload.Text := emailPayload.Text p;
       emailPayload.CC := emailPayload.CC p;
       emailPayload.BCC := emailPayload.BCC p;
       emailPayload.ReplyTo := emailPayload.ReplyTo p;
       emailPayload.Headers := Some (gomap.store (made (emailPayload.Headers p)) key value);
       emailPayload.Attachments := emailPayload.Attachments p;
       emailPayload.Route := emailPayload.Route p;
       emailPayload.Metadata := emailPayload.Metadata p;
       emailPayload.Tag := emailPayload.Tag p |}.

Definition Headers (headers : list (string * string)) (b : t) : t :=
  let p := payload b in
  with_payload b
    {| emailPayload.From := emailPayload.From p;
       emailPayload.To := emailPayload.To p;
       emailPayload.Subject := emailPayload.Subject p;
       emailPayload.HTML := emailPayload.HTML p;
       emailPayload.Text := emailPayload.Text p;
       emailPayload.CC := emailPayload.CC p;
       emailPayload.BCC := emailPayload.BCC p;
       emailPayload.ReplyTo := emailPayload.ReplyTo p;
       emailPayload.Headers := Some (gomap.storeAll (made (emailPayload.Headers p)) headers);
       emailPayload.Attachments := emailPayload.Attachments p;
       emailPayload.Route := emailPayload.Route p;
       emailPayload.Metadata := emailPayload.Metadata p;
       emailPayload.Tag := emailPayload.Tag p |}.

Definition AttachWithContentID (filename content contentID : string) (b : t) : t :=
  let p := payload b in
  with_payload b
    {| emailPayload.From := emailPayload.From p;
       emailPayload.To := emailPayload.To p;
       emailPayload.Subject := emailPayload.Subject p;
       emailPayload.HTML := emailPayload.HTML p;
       emailPayload.Text := emailPayload.Text p;
       emailPayload.CC := emailPayload.CC p;
       emailPayload.BCC := emailPayload.BCC p;
       emailPayload.ReplyTo := emailPayload.ReplyTo p;
       emailPayload.Headers := emailPayload.Headers p;
       emailPayload.Attachments := (emailPayload.Attachments p
          ++ [{| Filename := filename; Content := content;
                 ContentID := contentID |}])%list;
       emailPayload.Route := emailPayload.Route p;
       emailPayload.Metadata := emailPayload.Metadata p;
       emailPayload.Tag := emailPayload.Tag p |}.

Definition Attach (filename content : string) (b : t) : t :=
  AttachWithContentID filename content "" b.

Definition Metadata (metadata : list (string * string)) (b : t) : t :=
  let p := payload b in
  with_payload b
    {| emailPayload.From := emailPayload.From p;
       emailPayload.To := emailPayload.To p;
       emailPayload.Subject := emailPayload.Subject p;
       emailPayload.HTML := emailPayload.HTML p;
       emailPayload.Text := emailPayload.Text p;
       emailPayload.CC := emailPayload.CC p;
       emailPayload.BCC := emailPayload.BCC p;
       emailPayload.ReplyTo := emailPayload.ReplyTo p;
       emailPayload.Headers := emailPayload.Headers p;
       emailPayload.Attachments := emailPayload.Attachments p;
       emailPayload.Route := emailPayload.Route p;
       emailPayload.Metadata := Some (gomap.storeAll (made (emailPayload.Metadata p)) metadata);
       emailPayload.Tag := emailPayload.Tag p |}.

Definition MetadataValue (key value : string) (b : t) : t :=
  let p := payload b in
  with_payload b
    {| emailPayload.From := emailPayload.From p;
       emailPayload.To := emailPayload.To p;
       emailPayload.Subject := emailPayload.Subject p;
       emailPayload.HTML := emailPayload.HTML p;
       emailPayload.Text := emailPayload.Text p;
       emailPayload.CC := emailPayload.CC p;
       emailPayload.BCC := emailPayload.BCC p;
       emailPayload.ReplyTo := emailPayload.ReplyTo p;
       emailPayload.Headers := emailPayload.Headers p;
       emailPayload.Attachments := emailPayload.Attachments p;
       emailPayload.Route := emailPayload.Route p;
       emailPayload.Metadata := Some (gomap.store (made (emailPayload.Metadata p)) key value);
       emailPayload.Tag := emailPayload.Tag p |}.

Definition Tag (tag : string) (b : t) : t :=
  let p := payload b in
  with_payload b
    {| emailPayload.From := emailPayload.From p;
       emailPayload.To := emailPayload.To p;
       emailPayload.Subject := emailPayload.Subject p;
       emailPayload.HTML := emailPayload.HTML p;
       emailPayload.Text := emailPayload.Text p;
       emailPayload.CC := emailPayload.CC p;
       emailPayload.BCC := emailPayload.BCC p;
       emailPayload.ReplyTo := emailPayload.ReplyTo p;
       emailPayload.Headers := emailPayload.Headers p;
       emailPayload.Attachments := emailPayload.Attachments p;
       emailPayload.Route := emailPayload.Route p;
       emailPayload.Metadata := emailPayload.Metadata p;
       emailPayload.Tag := tag |}.

Definition Route (route : string) (b : t) : t :=
  let p := payload b in
  with_payload b
    {| emailPayload.From := emailPayload.From p;
       emailPayload.To := emailPayload.To p;
       emailPayload.Subject := emailPayload.Subject p;
       emailPayload.HTML := emailPayload.HTML p;
       emailPayload.Text := emailPayload.Text p;
       emailPayload.CC := emailPayload.CC p;
       emailPayload.BCC := emailPayload.BCC p;
       emailPayload.ReplyTo := emailPayload.ReplyTo p;
       emailPayload.Headers := emailPayload.Headers p;
       emailPayload.Attachments := emailPayload.Attachments p;
       emailPayload.Route := route;
       emailPayload.Metadata := emailPayload.Metadata p;
       emailPayload.Tag := emailPayload.Tag p |}.

Definition IdempotencyKey (key : string) (b : t) : t :=
  {| client := client b; ctx := ctx b; payload := payload b;
     idempotencyKey := key |}.

(** [validate]: the message of the error, or [None] for nil. *)
Definition validate (b : t) : option string :=
  if (emailPayload.From (payload b) =? "")%string then
    Some "from address is required"
  else if (List.length (emailPayload.To (payload b)) =? 0)%nat then
    Some "at least one recipient is required"
  else if (emailPayload.Subject (payload b) =? "")%string then
    Some "subject is required"
  else if (emailPayload.HTML (payload b) =? "")%string
          && (emailPayload.Text (payload b) =? "")%string then
    Some "either html or text body is required"
  else None.

End EmailBuilder.

(** The method [Email] of a client. *)
Definition Email (c : Client.t) (ctx : option context_error) : EmailBuilder.t :=
  {| EmailBuilder.client := c;
     EmailBuilder.ctx := ctx;
     EmailBuilder.payload :=
       {| emailPayload.From := ""; emailPayload.To := [];
          emailPayload.Subject := ""; emailPayload.HTML := "";
          emailPayload.Text := ""; emailPayload.CC := [];
          emailPayload.BCC := []; emailPayload.ReplyTo := [];
          emailPayload.Headers := None; emailPayload.Attachments := [];
          emailPayload.Route := ""; emailPayload.Metadata := None;
          emailPayload.Tag := "" |};
     EmailBuilder.idempotencyKey := "" |}.

(** The calls of the fluent interface, to speak of chains of them. *)
Module Fluent.

Inductive method : Set :=
| From (email : string)
| To (emails : list string)
| CC (emails : list string)
| BCC (emails : list string)
| ReplyTo (emails : list string)
| Subject (subject : string)
| HTML (html : string)
| Text (text : string)
| Header (key value : string)
| Headers (headers : list (string * string))
| Attach (filename content : string)
| AttachWithContentID (filename content contentID : string)
| Metadata (metadata : list (string * string))
| MetadataValue (key value : string)
| Tag (tag : string)
| Route (route : string)
| IdempotencyKey (key : string).

Definition call (m : method) (b : EmailBuilder.t) : EmailBuilder.t :=
  match m with
  | From email => EmailBuilder.From email b
  | To emails => EmailBuilder.To emails b
  | CC emails => EmailBuilder.CC emails b
  | BCC emails => EmailBuilder.BCC emails b
  | ReplyTo emails => EmailBuilder.ReplyTo emails b
  | Subject subject => EmailBuilder.Subject subject b
  | HTML html => EmailBuilder.HTML html b
  | Text text => EmailBuilder.Text text b
  | Header key value => EmailBuilder.Header key value b
  | Headers headers => EmailBuilder.Headers headers b
  | Attach filename content => EmailBuilder.Attach filename content b
  | AttachWithContentID filename content contentID =>
      EmailBuilder.AttachWithContentID filename content contentID b
  | Metadata metadata => EmailBuilder.Metadata metadata b
  | MetadataValue key value => EmailBuilder.MetadataValue key value b
  | Tag tag => EmailBuilder.Tag tag b
  | Route route => EmailBuilder.Route route b
  | IdempotencyKey key => EmailBuilder.IdempotencyKey key b
  end.

(** The chain [b.m1(...).m2(...)...]. *)
Definition chain (ms : list method) (b : EmailBuilder.t) : EmailBuilder.t :=
  fold_left (fun b' m => call m b') ms b.

(** The methods that set a field [validate] reads. *)
Definition required (m : method) : bool :=
  match m with
  | From _ | To _ | Subject _ | HTML _ | Text _ => true
  | _ => false
  end.

(** The recipients, the attachments and so on that a chain adds. *)
Definition recipients (ms : list method) : list string :=
  flat_map (fun m => match m with To emails => emails | _ => [] end) ms.

Definition copies (ms : list method) : list string :=
  flat_map (fun m => match m with CC emails => emails | _ => [] end) ms.

Definition blindCopies (ms : list method) : list string :=
  flat_map (fun m => match m with BCC emails => emails | _ => [] end) ms.

Definition replies (ms : list method) : list string :=
  flat_map (fun m => match m with ReplyTo emails => emails | _ => [] end) ms.

Definition attachments (ms : list method) : list Attachment :=
  flat_map (fun m =>
              match m with
              | Attach filename content =>
                  [{| Filename := filename; Content := content;
                      ContentID := "" |}]
              | AttachWithContentID filename content contentID =>
                  [{| Filename := filename; Content := content;
                      ContentID := contentID |}]
              | _ => []
              end) ms.

End Fluent.

(** The options that the package provides. *)
Inductive provided : Client.Option -> Prop :=
| provided_WithBaseURL baseURL : provided (Client.WithBaseURL baseURL)
| provided_WithTimeout timeout : provided (Client.WithTimeout timeout)
| provided_WithHTTPClient client : provided (Client.WithHTTPClient client).

(** ** Sending (email.go) *)

(** [strings.TrimSuffix(s, suffix)] for a one-byte suffix. *)
Definition TrimSuffix (s : string) (suffix : ascii) : string :=
  match rev_string s with
  | String c r => if Ascii.eqb c suffix then rev_string r else s
  | EmptyString => s
  end.

(** The errors of [json.Marshal], of [http.NewRequestWithContext] and of
    [http.Client.Do]; none of them wraps a sentinel of this package. *)
Inductive marshal_error : Set := MarshalError (msg : string).
Inductive url_error : Set := URLError (msg : string).
Inductive transport_error : Set := TransportError (msg : string).

(** The request that [Send] hands to the HTTP client: [Header] lists the
    calls of [Header.Set], in order. *)
Module Outgoing.
Record t : Set := {
  Method : string;
  URL : string;
  Header : list (string * string);
  Body : list byte
}.
End Outgoing.

(** The response: its status code and the result of reading its body. *)
Module Response.
Record t : Set := {
  StatusCode : Z;
  Body : list byte + io_error
}.
End Response.

(** The errors of [Send], one per [return nil, ...]. *)
Inductive send_error : Set :=
| ErrorfInvalidRequest (cause : string)
    (* fmt.Errorf("%w: %v", ErrInvalidRequest, err) *)
| ErrorfMarshal (cause : marshal_error)
    (* fmt.Errorf("failed to marshal email payload: %w", err) *)
| ErrorfCreateRequest (cause : url_error)
    (* fmt.Errorf("failed to create request: %w", err) *)
| ErrorfTimeout (cause : transport_error)
    (* fmt.Errorf("%w: %v", ErrTimeout, err) *)
| ErrorfCanceled (cause : transport_error)
    (* fmt.Errorf("request canceled: %w", err) *)
| ErrorfRequestFailed (cause : transport_error)
    (* fmt.Errorf("request failed: %w", err) *)
| ErrorfReadResponse (cause : io_error)
    (* fmt.Errorf("failed to read response: %w", err) *)
| OfAPIError (e : APIError.t)
    (* parseAPIError(resp.StatusCode, body) *)
| ErrorfParseResponse (cause : json_error).
    (* fmt.Errorf("failed to parse response: %w", err) *)

(** [errors.Is] on an error of [Send]. *)
Definition send_Is (e : send_error) (target : error) : bool :=
  match e with
  | ErrorfInvalidRequest _ => errors.Is ErrInvalidRequest target
  | ErrorfTimeout _ => errors.Is ErrTimeout target
  | OfAPIError e' => APIError.Is e' target
  | ErrorfMarshal _ | ErrorfCreateRequest _ | ErrorfCanceled _
  | ErrorfRequestFailed _ | ErrorfReadResponse _ | ErrorfParseResponse _ =>
      false
  end.

Section Send.

(** The world around [Send]: [json.Marshal] of the payload, the error of
    [http.NewRequestWithContext] for a URL and a context that is not nil
    (nil when the URL parses), the
    method [Do] of the client's [http.Client], [json.Unmarshal] into a
    [SendResponse], and the two parameters of [parseAPIError]. *)
Variable json_Marshal : emailPayload.t -> list byte + marshal_error.
Variable http_NewRequest_error : string -> option url_error.
Variable Do : option nat -> Outgoing.t -> Response.t + transport_error.
Variable json_Unmarshal_SendResponse : list byte -> SendResponse + json_error.
Variable json_Unmarshal_apiErrorResponse :
  list byte -> apiErrorResponse.t + json_error.
Variable http_StatusText : Z -> string.

(** The URL and the headers of the request. *)
Definition sendURL (b : EmailBuilder.t) : string :=
  (TrimSuffix (Client.baseURL (EmailBuilder.client b)) "/" ++ "/send")%string.

Definition sendHeader (b : EmailBuilder.t) : list (string * string) :=
  ([ ("Content-Type", "application/json");
     ("Accept", "application/json");
     ("x-lettermint-token", Client.apiToken (EmailBuilder.client b));
     ("User-Agent", ("lettermint-go/" ++ Version)%string) ]
   ++ (if negb (EmailBuilder.idempotencyKey b =? "")%string
       then [("Idempotency-Key", EmailBuilder.idempotencyKey b)]
       else []))%list.

(** [Send]: the request handed to the HTTP client, if the call gets that
    far, and the response or the error. *)
Definition Send (b : EmailBuilder.t)
  : option Outgoing.t * (SendResponse + send_error) :=
  match EmailBuilder.validate b with
  | Some err => (None, inr (ErrorfInvalidRequest err))
  | None =>
      match json_Marshal (EmailBuilder.payload b) with
      | inr err => (None, inr (ErrorfMarshal err))
      | inl jsonData =>
          let url := sendURL b in
          match http_NewRequest_error url with
          | Some err => (None, inr (ErrorfCreateRequest err))
          | None =>
              let req :=
                {| Outgoing.Method := http.MethodPost;
                   Outgoing.URL := url;
                   Outgoing.Header := sendHeader b;
                   Outgoing.Body := jsonData |} in
              match Do (Client.httpClient (EmailBuilder.client b)) req with
              | inr err =>
                  (Some req,
                   inr (match EmailBuilder.ctx b with
                        | Some DeadlineExceeded => ErrorfTimeout err
                        | Some Canceled => ErrorfCanceled err
                        | None => ErrorfRequestFailed err
                        end))
              | inl resp =>
                  match Response.Body resp with
                  | inr err => (Some req, inr (ErrorfReadResponse err))
                  | inl body =>
                      if 400 <=? Response.StatusCode resp then
                        (Some req,
                         inr (OfAPIError
                                (parseAPIError json_Unmarshal_apiErrorResponse
                                   http_StatusText
                                   (Response.StatusCode resp) body)))
                      else
                        match json_Unmarshal_SendResponse body with
                        | inr err => (Some req, inr (ErrorfParseResponse err))
                        | inl sendResp => (Some req, inl sendResp)
                        end
                  end
              end
          end
      end
  end.

End Send.

(** ** The example handler (examples/webhook/main.go) *)

Module example.

(** What the handler writes: an error with [http.Error], or the status 200
    with the acknowledgement. *)
Inductive reply : Set :=
| Error (message : string) (code : Z)
| Acknowledged.

Definition status (p : reply) : Z :=
  match p with
  | Error _ code => code
  | Acknowledged => http.StatusOK
  end.

Section Handler.

Variable json_Unmarshal : list byte -> WebhookEvent + json_error.

Definition webhookHandler (now : Z) (webhookSecret : string)
    (r : http.Request) : reply :=
  if negb (http.Method r =? http.MethodPost)%string then
    Error "Method not allowed" http.StatusMethodNotAllowed
  else
    match snd (VerifyWebhookFromRequest json_Unmarshal now r webhookSecret
                                        DefaultWebhookTolerance) with
    | inr err =>
        if request_Is err ErrInvalidWebhookSignature then
          Error "Invalid signature" http.StatusUnauthorized
        else if request_Is err ErrWebhookTimestampExpired then
          Error "Webhook expired" http.StatusUnauthorized
        else Error "Verification failed" http.StatusBadRequest
    | inl event => Acknowledged
    end.

End Handler.

End example.

(** * Properties *)

(** ** Test vectors *)

(** FIPS 180-4, the one-block and the two-block message. *)
Example Sum256_abc :
  hex.EncodeToString (sha256.Sum256 (bytes_of_string "abc"))
  = "ba7816bf8f01cfea414140de5dae2223b00361a396177a9cb410ff61f20015ad".
Proof. vm_compute. reflexivity. Qed.

Example Sum256_two_blocks :
  hex.EncodeToString
    (sha256.Sum256
       (bytes_of_string
          "abcdbcdecdefdefgefghfghighijhijkijkljklmklmnlmnomnopnopq"))
  = "248d6a61d20638b8e5c026930c3e6039a33ce45964ff2167f6ecedd419db06c1".
Proof. vm_compute. reflexivity. Qed.

(** RFC 4231, test cases 2 and 6 (a key longer than a block). *)
Example hmac_Jefe :
  computeHMAC (list_byte_of_string "what do ya want for nothing?") "Jefe"
  = "5bdcc146bf60754e6a042426089575c75a003f089d2739839dec58b964ec3843".
Proof. vm_compute. reflexivity. Qed.

Example hmac_long_key :
  hex.EncodeToString
    (hmac.Sum (repeat 0xaa 131)
       (bytes_of_string
          "Test Using Larger Than Block-Size Key - Hash Key First"))
  = "60e431591ee0b67f0d8a26aacbf5b77f8e0bc6213728c5140546040f0ee37f54".
Proof. vm_compute. reflexivity. Qed.

(** White space of one, two and three bytes is trimmed on both sides; a
    lone continuation byte is not white space. *)
Example TrimSpace_unicode :
  let nbsp := String (ascii_of_N 0xC2) (String (ascii_of_N 0xA0) "") in
  let ideographic :=
    String (ascii_of_N 0xE3)
      (String (ascii_of_N 0x80) (String (ascii_of_N 0x80) "")) in
  let lone := String (ascii_of_N 0xA0) "" in
  strings.TrimSpace (" " ++ nbsp ++ ideographic ++ "12 3" ++ ideographic
                     ++ nbsp ++ "  ")%string = "12 3"
  /\ strings.TrimSpace (lone ++ "1" ++ lone)%string
     = (lone ++ "1" ++ lone)%string.
Proof. split; vm_compute; reflexivity. Qed.

Example ParseInt_samples :
  strconv.ParseInt "-9223372036854775808" = Some (-9223372036854775808)
  /\ strconv.ParseInt "9223372036854775808" = None
  /\ strconv.ParseInt "+007" = Some 7
  /\ strconv.ParseInt "-0" = Some 0
  /\ strconv.ParseInt "" = None
  /\ strconv.ParseInt "-" = None
  /\ strconv.ParseInt "1_000" = None
  /\ strconv.ParseInt " 1" = None.
Proof. repeat split; vm_compute; reflexivity. Qed.

(** The tests of webhook_test.go on malformed signatures, on an empty
    secret and on an unsigned token, with the clock at the token's time. *)
Example TestVerifyWebhook_failures :
  Forall (fun signature =>
            exists e,
              error_of (VerifyWebhook sampleUnmarshal 1234567890 signature
                          (list_byte_of_string "{}") 0 "test-secret"
                          DefaultWebhookTolerance) = Some e
              /\ errors.Is e ErrInvalidWebhookSignature = true)
         [""; "invalid"; "t=1234567890"; "v1=abc123"; "t=invalid,v1=abc123";
          "timestamp=1234567890,hash=abc123"; "t=1234567890,v1=invalid_hash"]
  /\ error_of (VerifyWebhook sampleUnmarshal 1234567890
                 "t=1234567890,v1=abc123" (list_byte_of_string "{}") 0 ""
                 DefaultWebhookTolerance)
     = Some errSecretRequired.
Proof.
  split; [| reflexivity].
  repeat constructor; eexists; (split; [vm_compute; reflexivity |]);
    reflexivity.
Qed.

(** ** 64-bit arithmetic *)

Lemma wrap64_int64 (z : Z) : int64 z -> wrap64 z = z.
Proof.
  unfold int64, wrap64. intros H.
  rewrite Z.mod_small by lia. lia.
Qed.

Lemma wrap64_range (z : Z) : int64 (wrap64 z).
Proof.
  unfold int64, wrap64.
  pose proof (Z.mod_pos_bound (z + 2 ^ 63) (2 ^ 64) ltac:(lia)). lia.
Qed.

(** The age and the tolerance test when nothing overflows: the age is the
    absolute difference, and the test compares it, in nanoseconds, with the
    tolerance. *)
Lemma age_exact (now ts : Z) :
  Z.abs (now - ts) < 2 ^ 63 -> age now ts = Z.abs (now - ts).
Proof.
  intros H. unfold age.
  rewrite (wrap64_int64 (now - ts)) by (unfold int64; lia).
  destruct (Z.ltb_spec (now - ts) 0).
  - rewrite wrap64_int64 by (unfold int64; lia). lia.
  - lia.
Qed.

Lemma expired_exact (now ts tolerance : Z) :
  Z.abs (now - ts) * time.Second < 2 ^ 63 ->
  expired now ts tolerance = (Z.abs (now - ts) * time.Second >? tolerance).
Proof.
  intros H. unfold expired, time.Second in *.
  rewrite age_exact by lia.
  rewrite wrap64_int64 by (unfold int64; lia). reflexivity.
Qed.

(** ** The gates of [VerifyWebhook] *)

Lemma eqb_empty_false (s : string) : s <> "" -> (s =? "")%string = false.
Proof. intros H. apply String.eqb_neq. exact H. Qed.

Lemma VerifyWebhook_outcome U now signature payload d secret tolerance :
  Outcome U now signature payload d secret tolerance
          (VerifyWebhook U now signature payload d secret tolerance).
Proof.
  unfold VerifyWebhook.
  destruct (String.eqb_spec secret "") as [Hs | Hs]; [now constructor |].
  destruct (String.eqb_spec signature "") as [Hg | Hg]; [now constructor |].
  destruct (parseSignature signature) as [[ts h] | e] eqn:Hp; cbn.
  2: now apply EndsMalformed.
  assert (Hx : negb (d =? 0) && negb (d =? ts) = true
               /\ d <> 0 /\ d <> ts
               \/ negb (d =? 0) && negb (d =? ts) = false
                  /\ (d = 0 \/ d = ts)).
  { destruct (Z.eqb_spec d 0); destruct (Z.eqb_spec d ts); cbn; auto. }
  destruct Hx as [(-> & H0 & H1) | (-> & Hd)]; cbn.
  { exact (EndsMismatch U now signature payload d secret tolerance ts h
             Hs Hg Hp H0 H1). }
  fold (age now ts). fold (expired now ts tolerance).
  destruct (expired now ts tolerance) eqn:He; cbn.
  { exact (EndsExpired U now signature payload d secret tolerance ts h
             Hs Hg Hp Hd He). }
  fold (expectedHash ts payload secret).
  destruct (secureCompare h (expectedHash ts payload secret)) eqn:Hc; cbn.
  2: exact (EndsBadHash U now signature payload d secret tolerance ts h
              Hs Hg Hp Hd He Hc).
  destruct (U payload) as [event | e] eqn:Hu; cbn.
  - exact (EndsVerified U now signature payload d secret tolerance ts h event
             Hs Hg Hp Hd He Hc Hu).
  - exact (EndsBadPayload U now signature payload d secret tolerance ts h e
             Hs Hg Hp Hd He Hc Hu).
Qed.

(** ** The comparison of the hashes *)

Lemma byteRange_shiftr (z : Z) : byteRange z <-> 0 <= z /\ Z.shiftr z 8 = 0.
Proof.
  unfold byteRange. rewrite Z.shiftr_div_pow2 by lia.
  change (2 ^ 8) with 256. rewrite Z.div_small_iff by lia. lia.
Qed.

Lemma byteRange_lor (a b : Z) :
  byteRange a -> byteRange b -> byteRange (Z.lor a b).
Proof.
  rewrite !byteRange_shiftr. intros [Ha Ha'] [Hb Hb']. split.
  - apply Z.lor_nonneg. auto.
  - rewrite Z.shiftr_lor, Ha', Hb'. reflexivity.
Qed.

Lemma byteRange_lxor (a b : Z) :
  byteRange a -> byteRange b -> byteRange (Z.lxor a b).
Proof.
  rewrite !byteRange_shiftr. intros [Ha Ha'] [Hb Hb']. split.
  - apply Z.lxor_nonneg. tauto.
  - rewrite Z.shiftr_lxor, Ha', Hb'. reflexivity.
Qed.

Lemma octet_range (b : byte) : byteRange (octet b).
Proof.
  unfold byteRange, octet. pose proof (Byte.to_N_bounded b). lia.
Qed.

Lemma octet_inj (a b : byte) : octet a = octet b -> a = b.
Proof.
  unfold octet. intros H. apply N2Z.inj in H.
  pose proof (Byte.of_to_N a) as Ha. rewrite H, Byte.of_to_N in Ha.
  congruence.
Qed.

Lemma octets_inj (x y : list byte) : octets x = octets y -> x = y.
Proof.
  revert y. induction x as [| a x IH]; intros [| b y] H; try discriminate.
  - reflexivity.
  - cbn in H. injection H as Hab Hxy.
    f_equal; [now apply octet_inj | now apply IH].
Qed.

Lemma octets_range (x : list byte) : Forall byteRange (octets x).
Proof.
  induction x; cbn; constructor; auto using octet_range.
Qed.

Lemma octets_length (x : list byte) : List.length (octets x) = List.length x.
Proof. apply length_map. Qed.

(** The accumulator stays a byte, and it is zero at the end exactly when it
    was zero at the start and the two slices are equal. *)
Lemma accumulate_zero (x : list Z) :
  forall (y : list Z) (v : Z),
    List.length x = List.length y ->
    Forall byteRange x -> Forall byteRange y -> byteRange v ->
    byteRange (subtle.accumulate x y v)
    /\ (subtle.accumulate x y v = 0 <-> v = 0 /\ x = y).
Proof.
  induction x as [| a x IH]; intros [| b y] v Hl Hx Hy Hv;
    try discriminate; cbn [subtle.accumulate].
  - intuition.
  - apply Forall_cons_iff in Hx. destruct Hx as [Ha Hx].
    apply Forall_cons_iff in Hy. destruct Hy as [Hb Hy].
    injection Hl as Hl.
    destruct (IH y (Z.lor v (Z.lxor a b)) Hl) as [Hr Hz]; auto.
    { apply byteRange_lor; auto. apply byteRange_lxor; auto. }
    split; [exact Hr |].
    rewrite Hz, Z.lor_eq_0_iff, Z.lxor_eq_0_iff.
    split.
    + intros [[E1 E2] E3]. subst. auto.
    + intros [E1 E2]. injection E2 as E2 E3. auto.
Qed.

Lemma ConstantTimeByteEq_zero (v : Z) :
  byteRange v ->
  subtle.ConstantTimeByteEq v 0 = if v =? 0 then 1 else 0.
Proof.
  unfold byteRange, subtle.ConstantTimeByteEq. intros Hv.
  rewrite Z.lxor_0_r.
  destruct (Z.eqb_spec v 0) as [-> | Hn]; [reflexivity |].
  rewrite Z.mod_small by lia.
  rewrite Z.shiftr_div_pow2 by lia.
  apply Z.div_small. lia.
Qed.

Lemma ConstantTimeCompare_result (x y : list byte) :
  subtle.ConstantTimeCompare x y = 1 <-> x = y.
Proof.
  unfold subtle.ConstantTimeCompare.
  destruct (Nat.eqb_spec (List.length x) (List.length y)) as [Hl | Hl];
    cbn [negb].
  - destruct (accumulate_zero (octets x) (octets y) 0) as [Hr Hz];
      auto using octets_range.
    { now rewrite !octets_length. }
    { unfold byteRange; lia. }
    rewrite ConstantTimeByteEq_zero by exact Hr.
    destruct (Z.eqb_spec (subtle.accumulate (octets x) (octets y) 0) 0)
      as [Hv | Hv].
    + split; [intros _ | reflexivity].
      apply octets_inj. now apply Hz.
    + split; [discriminate |].
      intros ->. exfalso. apply Hv. apply Hz. auto.
  - split; [discriminate | intros ->; contradiction].
Qed.

Lemma list_byte_of_string_inj (a b : string) :
  list_byte_of_string a = list_byte_of_string b -> a = b.
Proof.
  intros H.
  rewrite <- (string_of_list_byte_of_string a),
          <- (string_of_list_byte_of_string b).
  now rewrite H.
Qed.

Lemma secureCompare_true_iff (a b : string) :
  secureCompare a b = true <-> a = b.
Proof.
  unfold secureCompare. rewrite Z.eqb_eq, ConstantTimeCompare_result.
  split; [apply list_byte_of_string_inj | now intros ->].
Qed.

Lemma secureCompare_eqb (a b : string) :
  secureCompare a b = (a =? b)%string.
Proof.
  destruct (String.eqb_spec a b) as [H | H].
  - now apply secureCompare_true_iff.
  - destruct (secureCompare a b) eqn:E; [| reflexivity].
    apply secureCompare_true_iff in E. contradiction.
Qed.

(** C8. For all strings [a] and [b], [secureCompare(a, b)] is the equality
    of [a] and [b]: true when they are equal (the empty strings included),
    false when they have the same length and differ, and false when their
    lengths differ, whichever is the shorter. *)
Theorem secureCompare_is_equality :
  forall a b : string,
    secureCompare a b = (a =? b)%string
    /\ (secureCompare a b = true <-> a = b)
    /\ secureCompare a a = true
    /\ secureCompare "" "" = true
    /\ (String.length a = String.length b -> a <> b ->
        secureCompare a b = false)
    /\ (String.length a <> String.length b ->
        secureCompare a b = false /\ secureCompare b a = false).
Proof.
  intros a b. split; [apply secureCompare_eqb |].
  split; [apply secureCompare_true_iff |].
  split; [now apply secureCompare_true_iff |].
  split; [reflexivity |].
  split.
  - intros _ Hn. rewrite secureCompare_eqb. now apply String.eqb_neq.
  - intros Hn. rewrite !secureCompare_eqb.
    split; apply String.eqb_neq; intros ->; contradiction.
Qed.

(** ** The kind of the errors *)

Lemma parseParts_error_kind (parts : list string) :
  forall (timestamp : Z) (hash : string) (e : error),
    parseParts parts timestamp hash = inr e ->
    e = Errorf "%w: invalid timestamp in signature"
               ErrInvalidWebhookSignature [].
Proof.
  induction parts as [| part parts IH]; intros timestamp hash e; cbn.
  - discriminate.
  - destruct (strings.SplitN2 part "=") as [| k [| v [| x l]]]; eauto.
    destruct (strings.TrimSpace k =? "t")%string.
    + destruct (strconv.ParseInt (strings.TrimSpace v)); eauto.
      intros H. now injection H as <-.
    + destruct (strings.TrimSpace k =? "v1")%string; eauto.
Qed.

Lemma parseSignature_error_kind (signature : string) (e : error) :
  parseSignature signature = inr e ->
  errors.Is e ErrInvalidWebhookSignature = true
  /\ errors.Is e ErrWebhookTimestampExpired = false.
Proof.
  unfold parseSignature.
  destruct (List.length (strings.Split signature ",") <? 2)%nat.
  { intros H. injection H as <-. now split. }
  destruct (parseParts (strings.Split signature ",") 0 "")
    as [[timestamp hash] | e'] eqn:Hp.
  - destruct (timestamp =? 0).
    { intros H. injection H as <-. now split. }
    destruct (hash =? "")%string; [| discriminate].
    intros H. injection H as <-. now split.
  - intros H. injection H as <-.
    apply parseParts_error_kind in Hp. subst e'. now split.
Qed.

(** Case analysis on the way a call of [VerifyWebhook] ends. *)
Ltac by_outcome U now signature payload d secret tolerance :=
  let O := fresh "O" in
  let r := fresh "r" in
  let Hr := fresh "Hr" in
  pose proof (VerifyWebhook_outcome U now signature payload d secret tolerance)
    as O;
  remember (VerifyWebhook U now signature payload d secret tolerance)
    as r eqn:Hr;
  destruct O.

(** C1. [VerifyWebhook] returns an event only if the hash [v1] of the token
    is the hex-encoded HMAC-SHA-256, keyed by the secret, of
    ["<timestamp>.<payload>"]; it calls the JSON decoder only as its last
    call, right after a comparison of the token's hash with that HMAC which
    succeeded; and when it returns an error it returns no event. *)
Theorem event_only_after_signature_check :
  forall U now signature payload d secret tolerance,
    let r := VerifyWebhook U now signature payload d secret tolerance in
    (forall event, event_of r = Some event ->
       error_of r = None
       /\ exists ts h,
            parseSignature signature = inl (ts, h)
            /\ h = hex.EncodeToString
                     (hmac.Sum
                        (octets (list_byte_of_string secret))
                        (octets (list_byte_of_string
                                   (strconv.FormatInt ts ++ "."
                                    ++ string_of_list_byte payload)%string))))
    /\ (forall q, In (CallUnmarshal q) (calls r) ->
          exists ts h,
            parseSignature signature = inl (ts, h)
            /\ calls r
               = (callsToCompare signature ts h payload secret
                    ++ [CallUnmarshal payload])%list
            /\ secureCompare h (expectedHash ts payload secret) = true
            /\ h = expectedHash ts payload secret)
    /\ (forall e, error_of r = Some e -> event_of r = None)
    /\ (event_of r = None <-> error_of r <> None).
Proof.
  intros U now signature payload d secret tolerance r. subst r.
  by_outcome U now signature payload d secret tolerance;
    unfold event_of, error_of, calls; cbn [fst snd].
  all: repeat split; try discriminate; try congruence.
  all: try (intros q Hq; cbn in Hq; exfalso;
            repeat (destruct Hq as [Hq | Hq]; try discriminate); exact Hq).
  - intros q _. exists ts, h.
    repeat split; auto. now apply secureCompare_true_iff.
  - exists ts, h. split; [assumption |].
    now apply secureCompare_true_iff.
  - intros q _. exists ts, h.
    repeat split; auto. now apply secureCompare_true_iff.
Qed.

(** C5. For a token that parses with timestamp [ts]: a non-zero delivery
    timestamp other than [ts] makes the call fail with
    [ErrInvalidWebhookSignature] (timestamp mismatch) before the clock is
    read and before any HMAC is computed or compared; with the delivery
    timestamp equal to [ts] the call succeeds when the other checks pass;
    and the delivery timestamp 0 gives the same result as [ts], the
    cross-check being skipped. *)
Theorem delivery_timestamp_cross_check
    U now signature payload secret tolerance ts h :
  parseSignature signature = inl (ts, h) ->
  (forall d, d <> 0 -> d <> ts ->
     let r := VerifyWebhook U now signature payload d secret tolerance in
     event_of r = None
     /\ (exists e, error_of r = Some e
                   /\ errors.Is e ErrInvalidWebhookSignature = true)
     /\ (secret <> "" ->
         r = ([CallParseSignature signature], inr errTimestampMismatch))
     /\ ~ In CallTimeNow (calls r)
     /\ (forall a b, ~ In (CallComputeHMAC a b) (calls r))
     /\ (forall a b, ~ In (CallSecureCompare a b) (calls r)))
  /\ (forall event,
        secret <> "" ->
        expired now ts tolerance = false ->
        h = expectedHash ts payload secret ->
        U payload = inl event ->
        let r := VerifyWebhook U now signature payload ts secret tolerance in
        event_of r = Some (set_RawPayload event payload)
        /\ error_of r = None)
  /\ VerifyWebhook U now signature payload 0 secret tolerance
     = VerifyWebhook U now signature payload ts secret tolerance.
Proof.
  intros Hp. split; [| split].
  - intros d Hd0 Hdt r. subst r.
    by_outcome U now signature payload d secret tolerance;
      unfold event_of, error_of, calls; cbn [fst snd];
      try (rewrite Hp in *; discriminate);
      try (exfalso; match goal with
                    | H : parseSignature _ = inl _ |- _ =>
                        rewrite Hp in H; injection H as <- <-
                    end; intuition congruence).
    + repeat split; eauto; try contradiction; cbn; intuition discriminate.
    + subst signature. discriminate Hp.
    + repeat split; eauto; cbn; intuition discriminate.
  - intros event Hs He Hh Hu r. subst r.
    assert (Hc : secureCompare h (expectedHash ts payload secret) = true)
      by now apply secureCompare_true_iff.
    by_outcome U now signature payload ts secret tolerance;
      unfold event_of, error_of; cbn [fst snd];
      try contradiction;
      try (rewrite Hp in *; discriminate);
      try match goal with
          | H : parseSignature _ = inl _ |- _ =>
              rewrite Hp in H; injection H as <- <-
          end;
      try congruence.
    + subst signature. discriminate Hp.
    + split; [| reflexivity]. congruence.
  - unfold VerifyWebhook. rewrite Hp. cbn.
    rewrite Z.eqb_refl. cbn. rewrite andb_false_r. reflexivity.
Qed.

(** The tolerance test passes when the absolute difference of the clock and
    the token's timestamp, in nanoseconds, is at most a tolerance that is a
    [time.Duration]. *)
Lemma within_tolerance (now ts tolerance : Z) :
  Z.abs (now - ts) * time.Second <= tolerance -> tolerance < 2 ^ 63 ->
  expired now ts tolerance = false.
Proof.
  intros H Ht. rewrite expired_exact by lia. lia.
Qed.

(** C6. A payload that is signed correctly under the secret, with a
    timestamp within the tolerance, and that is not well-formed event JSON
    makes [VerifyWebhook] fail with the payload-parse error, which wraps
    the error of the decoder and matches neither
    [ErrInvalidWebhookSignature] nor [ErrWebhookTimestampExpired]. *)
Theorem malformed_payload_is_not_a_signature_error
    U now signature payload d secret tolerance ts h e :
  secret <> "" ->
  parseSignature signature = inl (ts, h) ->
  d = 0 \/ d = ts ->
  h = expectedHash ts payload secret ->
  Z.abs (now - ts) * time.Second <= tolerance -> tolerance < 2 ^ 63 ->
  U payload = inr e ->
  let r := VerifyWebhook U now signature payload d secret tolerance in
  event_of r = None
  /\ error_of r
     = Some (Errorf "failed to parse webhook payload: %w" (JSONError e) [])
  /\ (forall err, error_of r = Some err ->
        errors.Is err ErrInvalidWebhookSignature = false
        /\ errors.Is err ErrWebhookTimestampExpired = false).
Proof.
  intros Hs Hp Hd Hh Hw Ht Hu r. subst r.
  assert (Hc : secureCompare h (expectedHash ts payload secret) = true)
    by now apply secureCompare_true_iff.
  assert (He : expired now ts tolerance = false)
    by now apply within_tolerance.
  by_outcome U now signature payload d secret tolerance;
    unfold event_of, error_of; cbn [fst snd];
    try contradiction;
    try (rewrite Hp in *; discriminate);
    try match goal with
        | H : parseSignature _ = inl _ |- _ =>
            rewrite Hp in H; injection H as <- <-
        end;
    try congruence.
  - subst signature. discriminate Hp.
  - exfalso. intuition congruence.
  - assert (e0 = e) by congruence. subst e0.
    split; [reflexivity |]. split; [reflexivity |].
    intros err Herr. injection Herr as <-. now split.
Qed.

(** C7. [VerifyWebhook] returns an error that matches
    [ErrInvalidWebhookSignature] exactly when the secret is empty, the
    signature string is empty, the token is malformed, a non-zero delivery
    timestamp differs from the token's, or the comparison of the hashes is
    reached (the tolerance test passed) and the hashes differ; and on an
    empty secret or an empty signature string it returns before it makes
    any call. *)
Theorem InvalidSignature_cases :
  forall U now signature payload d secret tolerance,
    let r := VerifyWebhook U now signature payload d secret tolerance in
    ((exists e, error_of r = Some e
                /\ errors.Is e ErrInvalidWebhookSignature = true)
     <-> secret = ""
         \/ signature = ""
         \/ (exists e, parseSignature signature = inr e)
         \/ (exists ts h, parseSignature signature = inl (ts, h)
                          /\ d <> 0 /\ d <> ts)
         \/ (exists ts h, parseSignature signature = inl (ts, h)
                          /\ (d = 0 \/ d = ts)
                          /\ expired now ts tolerance = false
                          /\ h <> expectedHash ts payload secret))
    /\ (secret = "" \/ signature = "" ->
        calls r = []
        /\ exists e, error_of r = Some e
                     /\ errors.Is e ErrInvalidWebhookSignature = true).
Proof.
  intros U now signature payload d secret tolerance r. subst r.
  by_outcome U now signature payload d secret tolerance;
    unfold event_of, error_of, calls; cbn [fst snd].
  - split; [split |]; eauto.
  - split; [split |]; eauto.
  - destruct (parseSignature_error_kind _ _ H1) as [Hk _].
    split; [split |]; eauto 6.
    intros [? | ?]; contradiction.
  - split; [split |]; eauto 10.
    intros [? | ?]; contradiction.
  - split.
    + split.
      * intros (e & He & Hk). injection He as <-. discriminate Hk.
      * intros [? | [? | [[e He] | [(ts' & h' & Hp & Hd0 & Hdt)
                                   | (ts' & h' & Hp & _ & He & _)]]]];
          try contradiction; try congruence;
          exfalso; rewrite Hp in H1; injection H1 as -> ->;
          try (apply Hn; now apply secureCompare_true_iff);
          intuition congruence.
    + intros [? | ?]; contradiction.
  - split; [split |]; eauto.
    + intros _. right. right. right. right. exists ts, h.
      repeat split; auto.
      intros Hh. apply secureCompare_true_iff in Hh. congruence.
    + intros [? | ?]; contradiction.
  - split.
    + split.
      * intros (e' & He & Hk). injection He as <-. discriminate Hk.
      * intros [? | [? | [[e' He] | [(ts' & h' & Hp & Hd0 & Hdt)
                                    | (ts' & h' & Hp & _ & _ & Hn)]]]];
          try contradiction; try congruence;
          exfalso; rewrite Hp in H1; injection H1 as -> ->;
          try (apply Hn; now apply secureCompare_true_iff);
          intuition congruence.
    + intros [? | ?]; contradiction.
  - split.
    + split.
      * intros (e' & He & _). discriminate He.
      * intros [? | [? | [[e' He] | [(ts' & h' & Hp & Hd0 & Hdt)
                                    | (ts' & h' & Hp & _ & _ & Hn)]]]];
          try contradiction; try congruence;
          exfalso; rewrite Hp in H1; injection H1 as -> ->;
          try (apply Hn; now apply secureCompare_true_iff);
          intuition congruence.
    + intros [? | ?]; contradiction.
Qed.

(** ** The parser of the signature token *)

Lemma last_Some_None (l : list string) :
  last (map Some l) None = None -> l = [].
Proof.
  induction l as [| a l IH]; [reflexivity |].
  cbn [map last]. destruct l as [| b l]; [discriminate |].
  intros H. specialize (IH H). discriminate IH.
Qed.

(** The value that counts is the last one: a field in front gives the value
    only when no later field has the key. *)
Lemma valueOf_cons (key k v : string) (fs : list (string * string)) :
  valueOf key ((k, v) :: fs)
  = match valueOf key fs with
    | Some v' => Some v'
    | None => if (k =? key)%string then Some v else None
    end.
Proof.
  unfold valueOf, valuesOf. cbn [filter fst].
  destruct (k =? key)%string; [| now destruct (last _ _)].
  cbn [map snd last].
  destruct (map snd (filter (fun kv => (fst kv =? key)%string) fs))
    as [| a l] eqn:E.
  - reflexivity.
  - cbn [map]. remember (last (Some a :: map Some l) None) as o eqn:Ho.
    destruct o as [v' |]; [reflexivity |].
    symmetry in Ho. apply (last_Some_None (a :: l)) in Ho. discriminate Ho.
Qed.

Lemma valuesOf_cons (key k v : string) (fs : list (string * string)) :
  valuesOf key ((k, v) :: fs)
  = if (k =? key)%string then v :: valuesOf key fs else valuesOf key fs.
Proof.
  unfold valuesOf. cbn [filter fst]. now destruct (k =? key)%string.
Qed.

Lemma SplitN2_fieldOf (part : string) :
  (exists k v, strings.SplitN2 part "=" = [k; v]
               /\ fieldOf part = [(strings.TrimSpace k, strings.TrimSpace v)])
  \/ (strings.SplitN2 part "=" = [part] /\ fieldOf part = []).
Proof.
  unfold strings.SplitN2, fieldOf.
  destruct (strings.Cut part "=") as [[k v] |]; eauto.
Qed.

(** The loop of the parser against the fields of the parts: it succeeds when
    every value of [t] parses, with the last value of [t] and the last value
    of [v1], or the initial ones. *)
Lemma parseParts_inl (parts : list string) :
  forall (t0 : Z) (h0 : string) (t : Z) (h : string),
    parseParts parts t0 h0 = inl (t, h) <->
    Forall (fun v => strconv.ParseInt v <> None)
           (valuesOf "t" (flat_map fieldOf parts))
    /\ Some t = match valueOf "t" (flat_map fieldOf parts) with
                | Some v => strconv.ParseInt v
                | None => Some t0
                end
    /\ h = match valueOf "v1" (flat_map fieldOf parts) with
           | Some v => v
           | None => h0
           end.
Proof.
  induction parts as [| part parts IH]; intros t0 h0 t h.
  - cbn. split.
    + intros H. injection H as -> ->. auto.
    + intros (_ & H1 & ->). now injection H1 as ->.
  - cbn [parseParts flat_map].
    destruct (SplitN2_fieldOf part) as [(k & v & -> & ->) | [Hs ->]].
    2: { destruct (strings.SplitN2 part "=") as [| a [| b [| c l]]];
           try discriminate; apply IH. }
    cbn [app]. rewrite !valueOf_cons, valuesOf_cons.
    destruct (String.eqb_spec (strings.TrimSpace k) "t") as [Hk | Hk].
    + rewrite Hk. cbn [String.eqb Ascii.eqb Bool.eqb].
      destruct (strconv.ParseInt (strings.TrimSpace v)) as [t1 |] eqn:Hv.
      * rewrite IH, Forall_cons_iff.
        destruct (valueOf "t" (flat_map fieldOf parts));
          destruct (valueOf "v1" (flat_map fieldOf parts));
          rewrite ?Hv; intuition congruence.
      * split; [discriminate |].
        intros (Hf & _). apply Forall_cons_iff in Hf. tauto.
    + destruct (String.eqb_spec (strings.TrimSpace k) "v1") as [Hk1 | Hk1].
      * rewrite IH.
        destruct (valueOf "t" (flat_map fieldOf parts));
          destruct (valueOf "v1" (flat_map fieldOf parts)); tauto.
      * rewrite IH.
        destruct (valueOf "t" (flat_map fieldOf parts));
          destruct (valueOf "v1" (flat_map fieldOf parts)); tauto.
Qed.

Lemma parseParts_inr (parts : list string) :
  forall (t0 : Z) (h0 : string) (e : error),
    parseParts parts t0 h0 = inr e ->
    exists v, In v (valuesOf "t" (flat_map fieldOf parts))
              /\ strconv.ParseInt v = None.
Proof.
  induction parts as [| part parts IH]; intros t0 h0 e.
  - discriminate.
  - cbn [parseParts flat_map].
    destruct (SplitN2_fieldOf part) as [(k & v & -> & ->) | [Hs ->]].
    2: { destruct (strings.SplitN2 part "=") as [| a [| b [| c l]]];
           try discriminate; apply IH. }
    cbn [app]. rewrite valuesOf_cons.
    destruct (String.eqb_spec (strings.TrimSpace k) "t") as [Hk | Hk].
    + destruct (strconv.ParseInt (strings.TrimSpace v)) as [t1 |] eqn:Hv.
      * intros H. destruct (IH _ _ _ H) as (w & Hw & Hn).
        exists w. split; [now right | exact Hn].
      * intros _. exists (strings.TrimSpace v). split; [now left | exact Hv].
    + destruct (strings.TrimSpace k =? "v1")%string; apply IH.
Qed.

(** The result of a token that parses. *)
Lemma parseSignature_inl (signature : string) (ts : Z) (h : string) :
  parseSignature signature = inl (ts, h) ->
  (2 <= List.length (strings.Split signature ","))%nat
  /\ Forall (fun v => strconv.ParseInt v <> None)
            (valuesOf "t" (fields signature))
  /\ (exists v, valueOf "t" (fields signature) = Some v
                /\ strconv.ParseInt v = Some ts)
  /\ valueOf "v1" (fields signature) = Some h
  /\ ts <> 0 /\ h <> "".
Proof.
  unfold parseSignature, fields.
  destruct (Nat.ltb_spec (List.length (strings.Split signature ",")) 2)
    as [Hl | Hl]; [discriminate |].
  destruct (parseParts (strings.Split signature ",") 0 "")
    as [[t h'] | e] eqn:Hp; [| discriminate].
  apply parseParts_inl in Hp. destruct Hp as (Hf & Ht & Hh).
  destruct (Z.eqb_spec t 0) as [Hz | Hz]; [discriminate |].
  destruct (String.eqb_spec h' "") as [He | He]; [discriminate |].
  intros H. injection H as <- <-.
  split; [exact Hl |]. split; [exact Hf |].
  destruct (valueOf "t" (flat_map fieldOf (strings.Split signature ",")))
    as [v |]; [| congruence].
  destruct (valueOf "v1" (flat_map fieldOf (strings.Split signature ",")))
    as [w |]; [| congruence].
  subst h'. eauto 6.
Qed.

(** A token is rejected exactly for one of the four reasons. *)
Lemma parseSignature_inr (signature : string) :
  (exists e, parseSignature signature = inr e) <->
  TooFewSegments signature \/ BadTimestamp signature
  \/ NoTimestamp signature \/ NoHash signature.
Proof.
  split.
  - intros [e He]. revert He.
    unfold parseSignature, TooFewSegments, BadTimestamp, NoTimestamp, NoHash,
      fields.
    destruct (Nat.ltb_spec (List.length (strings.Split signature ",")) 2)
      as [Hl | Hl]; [auto |].
    destruct (parseParts (strings.Split signature ",") 0 "")
      as [[t h] | e'] eqn:Hp.
    + apply parseParts_inl in Hp. destruct Hp as (_ & Ht & Hh).
      destruct (Z.eqb_spec t 0) as [Hz | Hz].
      { intros _. right. right. left. subst t.
        destruct (valueOf "t" _) as [v |]; eauto. }
      destruct (String.eqb_spec h "") as [Hn | Hn]; [| discriminate].
      intros _. right. right. right. subst h.
      destruct (valueOf "v1" _) as [v |]; [right | left]; congruence.
    + intros _. right. left. eapply parseParts_inr. exact Hp.
  - intros H.
    destruct (parseSignature signature) as [[ts h] |] eqn:Hp; [| eauto].
    exfalso. apply parseSignature_inl in Hp.
    destruct Hp as (Hl & Hf & (v & Hv & Hts) & Hh & Hz & Hn).
    unfold TooFewSegments, BadTimestamp, NoTimestamp, NoHash in H.
    destruct H as [H | [(w & Hw & Hb) | [[H | (w & Hw & Hb)] | [H | H]]]];
      try lia; try congruence.
    rewrite Forall_forall in Hf. now apply (Hf w).
Qed.

Lemma Split_not_nil (s : string) (sep : ascii) : strings.Split s sep <> [].
Proof.
  induction s as [| c s IH]; cbn; [discriminate |].
  destruct (Ascii.eqb c sep); [discriminate |].
  destruct (strings.Split s sep); [contradiction | discriminate].
Qed.

Lemma Split_app_sep (a b : string) :
  strings.Split (a ++ String "," b) ","
  = (strings.Split a "," ++ strings.Split b ",")%list.
Proof.
  induction a as [| c a IH]; cbn [append strings.Split]; [reflexivity |].
  destruct (Ascii.eqb c ","); rewrite IH; [reflexivity |].
  pose proof (Split_not_nil a ",") as Hn.
  destruct (strings.Split a ","); [contradiction | reflexivity].
Qed.

Lemma parseParts_app (a b : list string) :
  forall (t0 : Z) (h0 : string),
    parseParts (a ++ b) t0 h0
    = match parseParts a t0 h0 with
      | inl (t, h) => parseParts b t h
      | inr e => inr e
      end.
Proof.
  induction a as [| part a IH]; intros t0 h0; [reflexivity |].
  cbn [app parseParts].
  destruct (strings.SplitN2 part "=") as [| k [| v [| x l]]]; auto.
  destruct (strings.TrimSpace k =? "t")%string.
  - destruct (strconv.ParseInt (strings.TrimSpace v)); auto.
  - destruct (strings.TrimSpace k =? "v1")%string; auto.
Qed.

(** A further segment whose key is neither [t] nor [v1], or that has no
    [=], does not change the result. *)
Lemma parseSignature_unknown_key (s seg : string) :
  (2 <= List.length (strings.Split s ","))%nat ->
  strings.Split seg "," = [seg] ->
  (forall k v, fieldOf seg = [(k, v)] -> k <> "t" /\ k <> "v1") ->
  parseSignature (s ++ String "," seg) = parseSignature s.
Proof.
  intros Hl Hseg Hk. unfold parseSignature.
  rewrite Split_app_sep, Hseg, length_app, parseParts_app.
  destruct (Nat.ltb_spec (List.length (strings.Split s ",")) 2) as [H | _];
    [lia |].
  destruct (Nat.ltb_spec (List.length (strings.Split s ",")
                          + List.length [seg]) 2)
    as [H | _]; [cbn in H; lia |].
  destruct (parseParts (strings.Split s ",") 0 "") as [[t h] | e];
    [| reflexivity].
  cbn [parseParts].
  destruct (SplitN2_fieldOf seg) as [(k & v & -> & Hf) | [-> _]];
    [| reflexivity].
  destruct (Hk _ _ Hf) as [Ht Hv].
  apply String.eqb_neq in Ht, Hv. now rewrite Ht, Hv.
Qed.

(** C3. [parseSignature] reads the fields of the header (the segments
    between commas, each cut at its first [=], keys and values trimmed of
    white space) and looks at the keys [t] and [v1] only. It fails, always
    with an error that matches [ErrInvalidWebhookSignature], exactly when
    the header has fewer than two segments, a value of [t] does not parse as
    a base-10 integer ([strconv.ParseInt], 64 bits), [t] is missing or zero,
    or [v1] is missing or empty; it fails on each of the five malformed
    headers of the specification; when it succeeds it returns the
    timestamp parsed from [t] and the hash given by [v1]; and a further
    segment with another key changes nothing. *)
Theorem parseSignature_contract :
  (forall s,
     (exists e, parseSignature s = inr e) <->
     TooFewSegments s \/ BadTimestamp s \/ NoTimestamp s \/ NoHash s)
  /\ (forall s e,
        parseSignature s = inr e ->
        errors.Is e ErrInvalidWebhookSignature = true)
  /\ (forall s ts h,
        parseSignature s = inl (ts, h) <->
        (2 <= List.length (strings.Split s ","))%nat
        /\ Forall (fun v => strconv.ParseInt v <> None)
                  (valuesOf "t" (fields s))
        /\ (exists v, valueOf "t" (fields s) = Some v
                      /\ strconv.ParseInt v = Some ts)
        /\ valueOf "v1" (fields s) = Some h
        /\ ts <> 0 /\ h <> "")
  /\ Forall (fun s => exists e,
                 parseSignature s = inr e
                 /\ errors.Is e ErrInvalidWebhookSignature = true)
            [""; "invalid"; "t=123"; "v1=abc"; "t=abc,v1=xyz"]
  /\ (forall s seg,
        (2 <= List.length (strings.Split s ","))%nat ->
        strings.Split seg "," = [seg] ->
        (forall k v, fieldOf seg = [(k, v)] -> k <> "t" /\ k <> "v1") ->
        parseSignature (s ++ String "," seg) = parseSignature s)
  /\ parseSignature " t = 123 , v1 = abc , v2 = def" = inl (123, "abc").
Proof.
  split; [exact parseSignature_inr |].
  split; [intros s e H; now apply parseSignature_error_kind in H |].
  split.
  - intros s ts h. split; [apply parseSignature_inl |].
    intros (Hl & Hf & (v & Hv & Hts) & Hh & Hz & Hn).
    destruct (parseSignature s) as [[ts' h'] | e] eqn:Hp.
    + apply parseSignature_inl in Hp.
      destruct Hp as (_ & _ & (v' & Hv' & Hts') & Hh' & _).
      congruence.
    + exfalso.
      assert (He : exists e, parseSignature s = inr e) by eauto.
      apply parseSignature_inr in He.
      unfold TooFewSegments, BadTimestamp, NoTimestamp, NoHash in He.
      destruct He as [H | [(w & Hw & Hb) | [[H | (w & Hw & Hb)] | [H | H]]]];
        try lia; try congruence.
      rewrite Forall_forall in Hf. now apply (Hf w).
  - split; [| split; [exact parseSignature_unknown_key |
                       vm_compute; reflexivity]].
    repeat constructor; eexists; (split; [vm_compute; reflexivity |]);
      reflexivity.
Qed.

(** ** Strings of token characters *)

Lemma append_nil_r (s : string) : (s ++ "")%string = s.
Proof. induction s; cbn; congruence. Qed.

Lemma append_assoc (a b c : string) :
  ((a ++ b) ++ c)%string = (a ++ (b ++ c))%string.
Proof. induction a; cbn; congruence. Qed.

Lemma length_append (a b : string) :
  String.length (a ++ b) = (String.length a + String.length b)%nat.
Proof. induction a; cbn; congruence. Qed.

Lemma string_forall_app (P : ascii -> bool) (a b : string) :
  string_forall P (a ++ b) = string_forall P a && string_forall P b.
Proof.
  induction a as [| c a IH]; cbn; [reflexivity |].
  now rewrite IH, andb_assoc.
Qed.

Lemma string_forall_impl (P Q : ascii -> bool) (s : string) :
  (forall c, P c = true -> Q c = true) ->
  string_forall P s = true -> string_forall Q s = true.
Proof.
  intros H. induction s as [| c s IH]; cbn; [reflexivity |].
  rewrite !andb_true_iff. intros [Hc Hs]. auto.
Qed.

Lemma string_forall_list (P : ascii -> bool) (s : string) :
  string_forall P s = forallb P (list_ascii_of_string s).
Proof. induction s; cbn; congruence. Qed.

Lemma string_forall_rev (P : ascii -> bool) (s : string) :
  string_forall P s = true -> string_forall P (rev_string s) = true.
Proof.
  unfold rev_string.
  rewrite !string_forall_list, list_ascii_of_string_of_list_ascii.
  rewrite !forallb_forall. intros H c Hc. apply H. now apply in_rev.
Qed.

Lemma rev_string_involutive (s : string) : rev_string (rev_string s) = s.
Proof.
  unfold rev_string.
  now rewrite list_ascii_of_string_of_list_ascii, rev_involutive,
    string_of_list_ascii_of_string.
Qed.

Lemma tokenChar_no_space (c : ascii) (r : string) :
  tokenChar c = true ->
  strings.leadingSpace (String c r) = None
  /\ strings.trailingSpace (String c r) = None.
Proof.
  unfold tokenChar, strings.leadingSpace, strings.trailingSpace. cbv zeta.
  destruct (byteZ c <? 128); [| discriminate].
  destruct (strings.asciiSpace (byteZ c)); [discriminate |]. auto.
Qed.

Lemma trimWith_None (strip : string -> option string) (fuel : nat)
    (s : string) :
  strip s = None -> strings.trimWith strip fuel s = s.
Proof. intros H. destruct fuel; cbn; [| rewrite H]; reflexivity. Qed.

(** [strings.TrimSpace] leaves a string of token characters as it is. *)
Lemma TrimSpace_token (s : string) :
  string_forall tokenChar s = true -> strings.TrimSpace s = s.
Proof.
  intros H. unfold strings.TrimSpace.
  assert (Hl : strings.TrimLeftSpace s = s).
  { unfold strings.TrimLeftSpace. destruct s as [| c r]; [reflexivity |].
    apply trimWith_None. cbn in H. apply andb_true_iff in H.
    now apply tokenChar_no_space. }
  rewrite Hl. unfold strings.TrimRightSpace.
  apply string_forall_rev in H.
  rewrite trimWith_None; [apply rev_string_involutive |].
  destruct (rev_string s) as [| c r]; [reflexivity |].
  cbn in H. apply andb_true_iff in H. now apply tokenChar_no_space.
Qed.

(** ** Splitting at commas *)

Lemma tokenChar_notComma (c : ascii) : tokenChar c = true -> notComma c = true.
Proof.
  unfold tokenChar, notComma. rewrite !andb_true_iff, !negb_true_iff.
  intros [_ H]. apply Z.eqb_neq in H.
  destruct (Ascii.eqb_spec c ","); [| reflexivity].
  subst c. exfalso. apply H. reflexivity.
Qed.

Lemma Split_no_sep (a : string) :
  string_forall notComma a = true -> strings.Split a "," = [a].
Proof.
  induction a as [| c a IH]; cbn; [reflexivity |].
  rewrite andb_true_iff. intros [Hc Ha].
  unfold notComma in Hc. apply negb_true_iff in Hc. rewrite Hc.
  now rewrite (IH Ha).
Qed.

Lemma Split_at_sep (a b : string) :
  string_forall notComma a = true ->
  strings.Split (a ++ String "," b) "," = a :: strings.Split b ",".
Proof.
  induction a as [| c a IH]; cbn [append string_forall].
  - intros _. reflexivity.
  - rewrite andb_true_iff. intros [Hc Ha].
    unfold notComma in Hc. apply negb_true_iff in Hc.
    cbn [strings.Split]. rewrite Hc, (IH Ha). reflexivity.
Qed.

(** ** Decimal numbers *)

Lemma digit_byte (r : Z) :
  0 <= r < 10 -> byteZ (ascii_of_N (Z.to_N (48 + r))) = 48 + r.
Proof.
  intros H. unfold byteZ. rewrite N_ascii_embedding by lia. lia.
Qed.

Lemma digit_digitChar (r : Z) :
  0 <= r < 10 -> digitChar (ascii_of_N (Z.to_N (48 + r))) = true.
Proof.
  intros H. unfold digitChar. rewrite digit_byte by exact H. lia.
Qed.

Lemma digit_digitVal (r : Z) :
  0 <= r < 10 -> strconv.digitVal (ascii_of_N (Z.to_N (48 + r))) = Some r.
Proof.
  intros H. unfold strconv.digitVal. cbv zeta.
  rewrite digit_byte by exact H.
  replace ((48 <=? 48 + r) && (48 + r <=? 57)) with true by lia.
  f_equal. lia.
Qed.

Lemma digitChar_tokenChar (c : ascii) : digitChar c = true -> tokenChar c = true.
Proof.
  unfold digitChar, tokenChar, strings.asciiSpace. cbv zeta. lia.
Qed.

Lemma digitChar_no_sign (c : ascii) :
  digitChar c = true -> Ascii.eqb c "+" = false /\ Ascii.eqb c "-" = false.
Proof.
  unfold digitChar. intros H.
  split; apply Ascii.eqb_neq; intros ->; discriminate H.
Qed.

Lemma parseDigits_app (a b : string) :
  forall acc,
    strconv.parseDigits (a ++ b) acc
    = match strconv.parseDigits a acc with
      | Some acc' => strconv.parseDigits b acc'
      | None => None
      end.
Proof.
  induction a as [| c a IH]; intros acc; cbn; [reflexivity |].
  destruct (strconv.digitVal c); [apply IH | reflexivity].
Qed.

(** [formatBits] writes the decimal digits of [n], and [parseDigits] reads
    them back. *)
Lemma formatBits_digits (fuel : nat) :
  forall (n : Z) (acc : string),
    0 <= n < 10 ^ Z.of_nat (S fuel) ->
    exists ds,
      strconv.formatBits (S fuel) n acc = (ds ++ acc)%string
      /\ ds <> ""
      /\ string_forall digitChar ds = true
      /\ forall a, strconv.parseDigits ds a
                   = Some (a * 10 ^ Z.of_nat (String.length ds) + n).
Proof.
  induction fuel as [| fuel IH]; intros n acc Hn.
  - exists (String (ascii_of_N (Z.to_N (48 + n mod 10))) "").
    assert (n < 10) by (change (10 ^ Z.of_nat 1) with 10 in Hn; lia).
    assert (Hm : n mod 10 = n) by (apply Z.mod_small; lia).
    cbn [strconv.formatBits]. replace (n <? 10) with true by lia.
    split; [reflexivity |]. split; [discriminate |].
    rewrite Hm. split.
    + cbn [string_forall]. now rewrite digit_digitChar by lia.
    + intros a. cbn [strconv.parseDigits]. rewrite digit_digitVal by lia.
      cbn [String.length]; f_equal; change (10 ^ Z.of_nat 1) with 10; lia.
  - remember (S fuel) as fuel1 eqn:Hf.
    cbn [strconv.formatBits].
    pose proof (Z.mod_pos_bound n 10 ltac:(lia)) as Hr.
    destruct (Z.ltb_spec n 10) as [Hlt | Hge].
    + exists (String (ascii_of_N (Z.to_N (48 + n mod 10))) "").
      assert (Hm : n mod 10 = n) by (apply Z.mod_small; lia).
      split; [reflexivity |]. split; [discriminate |].
      rewrite Hm. split.
      * cbn [string_forall]. now rewrite digit_digitChar by lia.
      * intros a. cbn [strconv.parseDigits]. rewrite digit_digitVal by lia.
        cbn [String.length]; f_equal; change (10 ^ Z.of_nat 1) with 10; lia.
    + subst fuel1.
      destruct (IH (n / 10)
                   (String (ascii_of_N (Z.to_N (48 + n mod 10))) acc))
        as (ds & Hds & Hne & Hdig & Hval).
      { split; [apply Z.div_pos; lia |].
        apply Z.div_lt_upper_bound; [lia |].
        rewrite <- Z.pow_succ_r by lia.
        rewrite <- Nat2Z.inj_succ. lia. }
      exists (ds ++ String (ascii_of_N (Z.to_N (48 + n mod 10))) "")%string.
      split; [now rewrite Hds, append_assoc |].
      split; [destruct ds; [contradiction | discriminate] |].
      split.
      * rewrite string_forall_app, Hdig. cbn [string_forall].
        now rewrite digit_digitChar by lia.
      * intros a. rewrite parseDigits_app, Hval.
        cbn [strconv.parseDigits]. rewrite digit_digitVal by lia.
        f_equal. rewrite length_append. cbn [String.length].
        rewrite Nat.add_1_r, Nat2Z.inj_succ, Z.pow_succ_r by lia.
        pose proof (Z.div_mod n 10 ltac:(lia)). lia.
Qed.

Lemma ParseUint_digits (ds : string) (n : Z) :
  ds <> "" ->
  (forall a, strconv.parseDigits ds a
             = Some (a * 10 ^ Z.of_nat (String.length ds) + n)) ->
  n < 2 ^ 64 ->
  strconv.ParseUint ds = Some n.
Proof.
  intros Hne Hval Hn. unfold strconv.ParseUint.
  destruct ds as [| c ds]; [contradiction |].
  rewrite Hval. cbn [Z.mul]. replace (0 + n <? 2 ^ 64) with true by lia.
  reflexivity.
Qed.

(** [strconv.ParseInt] reads back what [%d] writes. *)
Lemma ParseInt_FormatInt (i : Z) :
  int64 i -> strconv.ParseInt (strconv.FormatInt i) = Some i.
Proof.
  unfold int64, strconv.FormatInt. intros Hi.
  destruct (Z.ltb_spec i 0) as [Hneg | Hpos].
  - destruct (formatBits_digits 19 (- i) "") as (ds & Hds & Hne & _ & Hval).
    { change (10 ^ Z.of_nat 20) with 100000000000000000000. lia. }
    rewrite Hds, append_nil_r.
    unfold strconv.ParseInt.
    change (Ascii.eqb "-" "-") with true. change (Ascii.eqb "-" "+") with false.
    cbn [orb negb andb].
    rewrite (ParseUint_digits ds (- i)) by (auto; lia).
    replace (2 ^ 63 <? - i) with false by lia.
    f_equal. lia.
  - destruct (formatBits_digits 19 i "") as (ds & Hds & Hne & Hdig & Hval).
    { change (10 ^ Z.of_nat 20) with 100000000000000000000. lia. }
    rewrite Hds, append_nil_r.
    destruct ds as [| c ds']; [contradiction |].
    cbn in Hdig. apply andb_true_iff in Hdig. destruct Hdig as [Hc _].
    destruct (digitChar_no_sign c Hc) as [Hplus Hminus].
    unfold strconv.ParseInt. rewrite Hplus, Hminus. cbn [orb negb andb].
    rewrite (ParseUint_digits (String c ds') i) by (auto; lia).
    replace (2 ^ 63 <=? i) with false by lia.
    reflexivity.
Qed.

Lemma FormatInt_token (i : Z) :
  int64 i -> string_forall tokenChar (strconv.FormatInt i) = true.
Proof.
  unfold int64, strconv.FormatInt. intros Hi.
  destruct (Z.ltb_spec i 0) as [Hneg | Hpos].
  - destruct (formatBits_digits 19 (- i) "") as (ds & Hds & _ & Hdig & _).
    { change (10 ^ Z.of_nat 20) with 100000000000000000000. lia. }
    rewrite Hds, append_nil_r. cbn [string_forall].
    apply andb_true_iff. split; [reflexivity |].
    now apply (string_forall_impl digitChar), Hdig; apply digitChar_tokenChar.
  - destruct (formatBits_digits 19 i "") as (ds & Hds & _ & Hdig & _).
    { change (10 ^ Z.of_nat 20) with 100000000000000000000. lia. }
    rewrite Hds, append_nil_r.
    now apply (string_forall_impl digitChar), Hdig; apply digitChar_tokenChar.
Qed.

(** ** Hex digests *)

Lemma hex_digit_token (n : Z) : tokenChar (hex.digit n) = true.
Proof.
  unfold hex.digit. generalize (Z.to_nat n). intros k.
  do 16 (destruct k as [| k]; [reflexivity |]).
  reflexivity.
Qed.

Lemma EncodeToString_token (src : list Z) :
  string_forall tokenChar (hex.EncodeToString src) = true.
Proof.
  induction src as [| v src IH]; cbn [hex.EncodeToString string_forall].
  - reflexivity.
  - now rewrite !hex_digit_token, IH.
Qed.

Lemma EncodeToString_not_empty (src : list Z) :
  src <> [] -> hex.EncodeToString src <> "".
Proof. destruct src; [contradiction | discriminate]. Qed.

Lemma Sum256_length (data : list Z) : List.length (sha256.Sum256 data) = 32%nat.
Proof.
  unfold sha256.Sum256.
  destruct (sha256.blocks _ _ _) as [[[[[[[h0 h1] h2] h3] h4] h5] h6] h7].
  reflexivity.
Qed.

Lemma hmac_Sum_length (key data : list Z) :
  List.length (hmac.Sum key data) = 32%nat.
Proof. unfold hmac.Sum. apply Sum256_length. Qed.

Lemma computeHMAC_token (data : list byte) (secret : string) :
  string_forall tokenChar (computeHMAC data secret) = true
  /\ computeHMAC data secret <> "".
Proof.
  unfold computeHMAC. split; [apply EncodeToString_token |].
  apply EncodeToString_not_empty.
  intros H. pose proof (hmac_Sum_length
                          (octets (list_byte_of_string secret)) (octets data))
    as Hl.
  rewrite H in Hl. discriminate Hl.
Qed.

(** ** Tokens that parse *)

(** A token [t=<timestamp>,v1=<hash>] written with [%d] and a hash of token
    characters parses to its timestamp and its hash. *)
Lemma parseSignature_written (ts : Z) (h : string) :
  int64 ts -> ts <> 0 ->
  h <> "" -> string_forall tokenChar h = true ->
  parseSignature ("t=" ++ strconv.FormatInt ts ++ ",v1=" ++ h)
  = inl (ts, h).
Proof.
  intros Hi Hz Hne Hh.
  pose proof (FormatInt_token ts Hi) as Hf.
  unfold parseSignature.
  assert (Hs : strings.Split ("t=" ++ strconv.FormatInt ts ++ ",v1=" ++ h) ","
               = [("t=" ++ strconv.FormatInt ts)%string; ("v1=" ++ h)%string]).
  { change ("t=" ++ strconv.FormatInt ts ++ ",v1=" ++ h)%string
      with (("t=" ++ strconv.FormatInt ts)
              ++ String "," ("v1=" ++ h))%string at 1.
    - rewrite Split_at_sep.
      + rewrite Split_no_sep; [reflexivity |].
        cbn [append string_forall]. cbn [notComma Ascii.eqb Bool.eqb negb andb].
        apply (string_forall_impl tokenChar); [| exact Hh].
        apply tokenChar_notComma.
      + cbn [append string_forall]. cbn [notComma Ascii.eqb Bool.eqb negb andb].
        apply (string_forall_impl tokenChar); [| exact Hf].
        apply tokenChar_notComma. }
  rewrite Hs. cbn [List.length Nat.ltb Nat.leb].
  cbn [parseParts].
  change (strings.SplitN2 ("t=" ++ strconv.FormatInt ts) "=")
    with ["t"; strconv.FormatInt ts].
  change (strings.SplitN2 ("v1=" ++ h) "=") with ["v1"; h].
  cbv beta iota.
  rewrite (TrimSpace_token (strconv.FormatInt ts)) by exact Hf.
  rewrite (TrimSpace_token h) by exact Hh.
  change (strings.TrimSpace "t") with "t".
  change (strings.TrimSpace "v1") with "v1".
  cbn [String.eqb Ascii.eqb Bool.eqb].
  rewrite ParseInt_FormatInt by exact Hi.
  replace (ts =? 0) with false by lia.
  rewrite eqb_empty_false by exact Hne.
  reflexivity.
Qed.

Lemma generateTestSignature_parses (payload secret : string) (ts : Z) :
  int64 ts -> ts <> 0 ->
  parseSignature (generateTestSignature payload secret ts)
  = inl (ts, expectedHash ts (list_byte_of_string payload) secret).
Proof.
  intros Hi Hz.
  assert (He : generateTestSignature payload secret ts
               = ("t=" ++ strconv.FormatInt ts ++ ",v1="
                  ++ expectedHash ts (list_byte_of_string payload) secret)%string).
  { unfold generateTestSignature, expectedHash, computeHMAC, signedPayload.
    now rewrite string_of_list_byte_of_string. }
  rewrite He.
  destruct (computeHMAC_token
              (list_byte_of_string
                 (signedPayload ts (list_byte_of_string payload))) secret)
    as [Ht Hn].
  now apply parseSignature_written.
Qed.

(** ** Verification of a signed payload *)

(** A run in which every gate passes. *)
Lemma VerifyWebhook_verified U now signature payload d secret tolerance
    ts h event :
  secret <> "" ->
  parseSignature signature = inl (ts, h) ->
  d = 0 \/ d = ts ->
  expired now ts tolerance = false ->
  h = expectedHash ts payload secret ->
  U payload = inl event ->
  VerifyWebhook U now signature payload d secret tolerance
  = ((callsToCompare signature ts h payload secret
        ++ [CallUnmarshal payload])%list,
     inl (set_RawPayload event payload)).
Proof.
  intros Hs Hp Hd He Hh Hu.
  assert (Hc : secureCompare h (expectedHash ts payload secret) = true)
    by now apply secureCompare_true_iff.
  by_outcome U now signature payload d secret tolerance;
    try contradiction;
    try (rewrite Hp in *; discriminate);
    try match goal with
        | H : parseSignature _ = inl _ |- _ =>
            rewrite Hp in H; injection H as <- <-
        end;
    try congruence.
  - subst signature. discriminate Hp.
  - exfalso. intuition congruence.
Qed.

(** C2, as the code has it. A token generated as
    [t=T,v1=hex(HMAC-SHA256(S, "T.P"))] verifies against [P] and [S]
    ([VerifyWebhook] returns the event decoded from [P], with [P] attached,
    and no error) whenever the secret [S] is not empty, [T] is a non-zero
    int64, the payload [P] decodes as event JSON, the delivery timestamp is
    0 or [T], and the absolute difference of the clock and [T], in
    nanoseconds, is within the tolerance. *)
Theorem generated_token_verifies U now payload secret ts tolerance d event :
  secret <> "" ->
  int64 ts -> ts <> 0 ->
  d = 0 \/ d = ts ->
  Z.abs (now - ts) * time.Second <= tolerance -> tolerance < 2 ^ 63 ->
  U (list_byte_of_string payload) = inl event ->
  let r := VerifyWebhook U now (generateTestSignature payload secret ts)
                         (list_byte_of_string payload) d secret tolerance in
  event_of r = Some (set_RawPayload event (list_byte_of_string payload))
  /\ error_of r = None.
Proof.
  intros Hs Hi Hz Hd Hw Ht Hu r. subst r.
  rewrite (VerifyWebhook_verified U now _ _ d secret tolerance ts
             (expectedHash ts (list_byte_of_string payload) secret) event);
    auto using generateTestSignature_parses, within_tolerance.
Qed.

Lemma generated_token_verifies_witness :
  Z.abs (1700000100 - 1700000000) * time.Second <= DefaultWebhookTolerance
  /\ event_of
       (VerifyWebhook sampleUnmarshal 1700000100
          (generateTestSignature "{}" "test-secret" 1700000000)
          (list_byte_of_string "{}") 0 "test-secret" DefaultWebhookTolerance)
     = Some (set_RawPayload zeroEvent (list_byte_of_string "{}")).
Proof.
  split; [vm_compute; discriminate |].
  apply (generated_token_verifies sampleUnmarshal 1700000100 "{}"
           "test-secret" 1700000000 DefaultWebhookTolerance 0 zeroEvent).
  - discriminate.
  - unfold int64. lia.
  - discriminate.
  - now left.
  - vm_compute. discriminate.
  - reflexivity.
  - reflexivity.
Defined.

(** The claim C2 as stated fails on the code: a token generated for the
    payload [invalid json], for the empty secret, or for the timestamp 0 is
    within the tolerance and does not verify. *)
Lemma generated_token_rejected :
  (Z.abs (1700000000 - 1700000000) * time.Second <= DefaultWebhookTolerance
   /\ VerifyWebhook sampleUnmarshal 1700000000
        (generateTestSignature "invalid json" "test-secret" 1700000000)
        (list_byte_of_string "invalid json") 0 "test-secret"
        DefaultWebhookTolerance
      = ((callsToCompare
            (generateTestSignature "invalid json" "test-secret" 1700000000)
            1700000000
            "95c57a3d1ad29aba37df6533a2c382ff125760b5bc4eecc4d3dc73ce87c507a8"
            (list_byte_of_string "invalid json") "test-secret"
            ++ [CallUnmarshal (list_byte_of_string "invalid json")])%list,
         inr (errPayload
                (SyntaxError
                   "invalid character 'i' looking for beginning of value" 1))))
  /\ VerifyWebhook sampleUnmarshal 1700000000
       (generateTestSignature "{}" "" 1700000000)
       (list_byte_of_string "{}") 0 "" DefaultWebhookTolerance
     = ([], inr errSecretRequired)
  /\ (Z.abs (100 - 0) * time.Second <= DefaultWebhookTolerance
      /\ VerifyWebhook sampleUnmarshal 100
           (generateTestSignature "{}" "test-secret" 0)
           (list_byte_of_string "{}") 0 "test-secret" DefaultWebhookTolerance
         = ([CallParseSignature (generateTestSignature "{}" "test-secret" 0)],
            inr (Errorf "%w: missing timestamp (t=) in signature"
                        ErrInvalidWebhookSignature []))).
Proof.
  split; [split; [vm_compute; discriminate | vm_compute; reflexivity] |].
  split; [vm_compute; reflexivity |].
  split; [vm_compute; discriminate | vm_compute; reflexivity].
Qed.

Lemma delivery_timestamp_cross_check_witness :
  parseSignature
    "t=1700000000,v1=87d3ed18b9b403e7da0fc3a3ae8b9394303805a049ea06f87c2ef4380b521fa9"
  = inl (1700000000,
         "87d3ed18b9b403e7da0fc3a3ae8b9394303805a049ea06f87c2ef4380b521fa9")
  /\ VerifyWebhook sampleUnmarshal 1700000000
       "t=1700000000,v1=87d3ed18b9b403e7da0fc3a3ae8b9394303805a049ea06f87c2ef4380b521fa9"
       (list_byte_of_string "{}") 1700000100 "test-secret"
       DefaultWebhookTolerance
     = ([CallParseSignature
           "t=1700000000,v1=87d3ed18b9b403e7da0fc3a3ae8b9394303805a049ea06f87c2ef4380b521fa9"],
        inr errTimestampMismatch)
  /\ event_of
       (VerifyWebhook sampleUnmarshal 1700000000
          "t=1700000000,v1=87d3ed18b9b403e7da0fc3a3ae8b9394303805a049ea06f87c2ef4380b521fa9"
          (list_byte_of_string "{}") 1700000000 "test-secret"
          DefaultWebhookTolerance)
     = Some (set_RawPayload zeroEvent (list_byte_of_string "{}")).
Proof.
  assert (Hp : parseSignature
    "t=1700000000,v1=87d3ed18b9b403e7da0fc3a3ae8b9394303805a049ea06f87c2ef4380b521fa9"
    = inl (1700000000,
           "87d3ed18b9b403e7da0fc3a3ae8b9394303805a049ea06f87c2ef4380b521fa9"))
    by (vm_compute; reflexivity).
  split; [exact Hp |].
  destruct (delivery_timestamp_cross_check sampleUnmarshal 1700000000 _
              (list_byte_of_string "{}") "test-secret" DefaultWebhookTolerance
              _ _ Hp) as (Hmis & Heq & _).
  split.
  - apply (Hmis 1700000100); discriminate.
  - apply (Heq zeroEvent); [discriminate | | |]; vm_compute; reflexivity.
Defined.

Lemma malformed_payload_is_not_a_signature_error_witness :
  parseSignature
    "t=1700000000,v1=95c57a3d1ad29aba37df6533a2c382ff125760b5bc4eecc4d3dc73ce87c507a8"
  = inl (1700000000,
         "95c57a3d1ad29aba37df6533a2c382ff125760b5bc4eecc4d3dc73ce87c507a8")
  /\ error_of
       (VerifyWebhook sampleUnmarshal 1700000007
          "t=1700000000,v1=95c57a3d1ad29aba37df6533a2c382ff125760b5bc4eecc4d3dc73ce87c507a8"
          (list_byte_of_string "invalid json") 0 "test-secret"
          DefaultWebhookTolerance)
     = Some (Errorf "failed to parse webhook payload: %w"
               (JSONError
                  (SyntaxError
                     "invalid character 'i' looking for beginning of value" 1))
               []).
Proof.
  assert (Hp : parseSignature
    "t=1700000000,v1=95c57a3d1ad29aba37df6533a2c382ff125760b5bc4eecc4d3dc73ce87c507a8"
    = inl (1700000000,
           "95c57a3d1ad29aba37df6533a2c382ff125760b5bc4eecc4d3dc73ce87c507a8"))
    by (vm_compute; reflexivity).
  split; [exact Hp |].
  apply (malformed_payload_is_not_a_signature_error sampleUnmarshal
           1700000007 _ (list_byte_of_string "invalid json") 0 "test-secret"
           DefaultWebhookTolerance _ _
           (SyntaxError
              "invalid character 'i' looking for beginning of value" 1)
           ltac:(discriminate) Hp).
  - now left.
  - vm_compute. reflexivity.
  - vm_compute. discriminate.
  - reflexivity.
  - reflexivity.
Defined.

(** ** The tolerance test *)

(** When the age in nanoseconds fits an int64, a call that passes the first
    three gates fails with [ErrWebhookTimestampExpired] exactly when the
    absolute difference of the clock and the token's timestamp, in seconds,
    exceeds the tolerance in seconds; past and future count alike. *)
Lemma tolerance_gate_in_range U now signature payload d secret tolerance ts h :
  secret <> "" ->
  parseSignature signature = inl (ts, h) ->
  d = 0 \/ d = ts ->
  Z.abs (now - ts) * time.Second < 2 ^ 63 ->
  0 <= tolerance ->
  let r := VerifyWebhook U now signature payload d secret tolerance in
  ((exists e, error_of r = Some e
              /\ errors.Is e ErrWebhookTimestampExpired = true)
   <-> Z.abs (now - ts) > tolerance / time.Second)
  /\ (Z.abs (now - ts) > tolerance / time.Second ->
      r = ([CallParseSignature signature; CallTimeNow],
           inr (errExpired ts (Z.abs (now - ts)) tolerance))).
Proof.
  intros Hs Hp Hd Hr Ht r. subst r.
  assert (Hx : expired now ts tolerance = true
               <-> Z.abs (now - ts) > tolerance / time.Second).
  { rewrite expired_exact by exact Hr. unfold time.Second in *.
    pose proof (Z.div_mod tolerance 1000000000 ltac:(lia)).
    pose proof (Z.mod_pos_bound tolerance 1000000000 ltac:(lia)).
    rewrite Z.gtb_ltb, Z.ltb_lt. nia. }
  assert (Ha : age now ts = Z.abs (now - ts)).
  { apply age_exact. unfold time.Second in Hr. lia. }
  by_outcome U now signature payload d secret tolerance;
    unfold error_of; cbn [fst snd];
    try contradiction;
    try (rewrite Hp in *; discriminate);
    try match goal with
        | H : parseSignature _ = inl _ |- _ =>
            rewrite Hp in H; injection H as <- <-
        end.
  - subst signature. discriminate Hp.
  - exfalso. intuition congruence.
  - rewrite Ha. split; [| reflexivity].
    split; [intros _; now apply Hx | eauto].
  - assert (Hn : ~ Z.abs (now - ts) > tolerance / time.Second)
      by (rewrite <- Hx; congruence).
    split; [| intros; contradiction].
    split; [| intros; contradiction].
    intros (e & He & Hk). injection He as <-. discriminate Hk.
  - assert (Hn : ~ Z.abs (now - ts) > tolerance / time.Second)
      by (rewrite <- Hx; congruence).
    split; [| intros; contradiction].
    split; [| intros; contradiction].
    intros (e' & He & Hk). injection He as <-. discriminate Hk.
  - assert (Hn : ~ Z.abs (now - ts) > tolerance / time.Second)
      by (rewrite <- Hx; congruence).
    split; [| intros; contradiction].
    split; [| intros; contradiction].
    intros (e' & He & _). discriminate He.
Qed.

(** C4, on the code. With the clock at 1700000000 and the default tolerance
    of 5 minutes, a token stamped 10^10 seconds in the future, or one
    stamped 9.7 * 10^9 seconds in the past, passes the tolerance test: the
    age in nanoseconds does not fit an int64 and wraps to a negative
    duration. The call goes on to the HMAC: it returns the event when the
    token is signed, and the signature error when it is not; it never
    returns [ErrWebhookTimestampExpired]. A token 300 seconds away passes
    and one 301 seconds away fails, in either direction. *)
Theorem tolerance_gate_overflow :
  Z.abs (1700000000 - 11700000000) > DefaultWebhookTolerance / time.Second
  /\ expired 1700000000 11700000000 DefaultWebhookTolerance = false
  /\ wrap64 (age 1700000000 11700000000 * time.Second)
     = -8446744073709551616
  /\ event_of
       (VerifyWebhook sampleUnmarshal 1700000000
          "t=11700000000,v1=bf7b55915f318d7a5694ebf2dcd23a0345470297faaef54a2eb2f830a7ecf108"
          (list_byte_of_string "{}") 0 "test-secret" DefaultWebhookTolerance)
     = Some (set_RawPayload zeroEvent (list_byte_of_string "{}"))
  /\ (forall U,
        error_of
          (VerifyWebhook U 1700000000 "t=11700000000,v1=abc"
             (list_byte_of_string "{}") 0 "test-secret"
             DefaultWebhookTolerance)
        = Some errVerificationFailed)
  /\ Z.abs (1700000000 - -8000000000) > DefaultWebhookTolerance / time.Second
  /\ expired 1700000000 (-8000000000) DefaultWebhookTolerance = false
  /\ (forall U,
        error_of
          (VerifyWebhook U 1700000000 "t=-8000000000,v1=abc"
             (list_byte_of_string "{}") 0 "test-secret"
             DefaultWebhookTolerance)
        = Some errVerificationFailed)
  /\ expired 1700000000 1700000300 DefaultWebhookTolerance = false
  /\ expired 1700000000 1699999700 DefaultWebhookTolerance = false
  /\ expired 1700000000 1700000301 DefaultWebhookTolerance = true
  /\ expired 1700000000 1699999699 DefaultWebhookTolerance = true.
Proof.
  repeat split; try (vm_compute; reflexivity); intros U; vm_compute;
    reflexivity.
Qed.

(** ** Negative timestamps *)

(** The parser accepts every negative int64 timestamp. *)
Lemma negative_timestamp_accepted (ts : Z) (h : string) :
  int64 ts -> ts < 0 ->
  h <> "" -> string_forall tokenChar h = true ->
  parseSignature ("t=" ++ strconv.FormatInt ts ++ ",v1=" ++ h) = inl (ts, h).
Proof. intros Hi Hn. apply parseSignature_written; [exact Hi | lia]. Qed.

(** C10, on the code. The token [t=-1,v1=abc] parses, and with the clock at
    1700000000 the call fails with [ErrWebhookTimestampExpired]. The token
    [t=-8000000000,v1=abc] parses too, and is 9.7 * 10^9 seconds away from
    the clock, far beyond the tolerance of 5 minutes; but its age in
    nanoseconds wraps to a negative duration, the tolerance test passes, and
    the call fails at the comparison of the hashes with
    [ErrInvalidWebhookSignature], not with [ErrWebhookTimestampExpired]. *)
Theorem negative_timestamp_overflow :
  parseSignature "t=-1,v1=abc" = inl (-1, "abc")
  /\ (forall U,
        VerifyWebhook U 1700000000 "t=-1,v1=abc" (list_byte_of_string "{}") 0
                      "test-secret" DefaultWebhookTolerance
        = ([CallParseSignature "t=-1,v1=abc"; CallTimeNow],
           inr (errExpired (-1) 1700000001 DefaultWebhookTolerance)))
  /\ parseSignature "t=-8000000000,v1=abc" = inl (-8000000000, "abc")
  /\ Z.abs (1700000000 - -8000000000) * time.Second > DefaultWebhookTolerance
  /\ wrap64 (age 1700000000 (-8000000000) * time.Second)
     = -8746744073709551616
  /\ (forall U,
        error_of
          (VerifyWebhook U 1700000000 "t=-8000000000,v1=abc"
             (list_byte_of_string "{}") 0 "test-secret"
             DefaultWebhookTolerance)
        = Some errVerificationFailed)
  /\ errors.Is errVerificationFailed ErrWebhookTimestampExpired = false
  /\ errors.Is errVerificationFailed ErrInvalidWebhookSignature = true.
Proof.
  repeat split; try (vm_compute; reflexivity); intros U; vm_compute;
    reflexivity.
Qed.

(** ** The request adapter *)

(** The adapter, once both headers are read: the body is read, and the
    payload, if any, goes to [VerifyWebhook] with the delivery timestamp. *)
Lemma VerifyWebhookFromRequest_delegates U now r secret tolerance d :
  http.Header_Get r HeaderSignature <> "" ->
  (if (http.Header_Get r HeaderDelivery =? "")%string then Some 0
   else strconv.ParseInt (http.Header_Get r HeaderDelivery)) = Some d ->
  VerifyWebhookFromRequest U now r secret tolerance
  = match http.Body r with
    | inr err => ([CallReadAll], inr (ErrorfReadBody err))
    | inl payload =>
        (CallReadAll
           :: map CallOfVerifyWebhook
                (calls (VerifyWebhook U now (http.Header_Get r HeaderSignature)
                                      payload d secret tolerance)),
         match snd (VerifyWebhook U now (http.Header_Get r HeaderSignature)
                                  payload d secret tolerance) with
         | inl event => inl event
         | inr e => inr (OfVerifyWebhook e)
         end)
    end.
Proof.
  intros Hs Hd. unfold VerifyWebhookFromRequest.
  rewrite eqb_empty_false by exact Hs. cbv zeta. rewrite Hd.
  destruct (http.Body r) as [payload | err]; [| reflexivity].
  now destruct (VerifyWebhook U now _ payload d secret tolerance).
Qed.

(** An event of the adapter comes from a run of the verifier in which every
    gate passed. *)
Lemma adapter_event U now r secret tolerance event :
  snd (VerifyWebhookFromRequest U now r secret tolerance) = inl event ->
  exists payload ts h,
    http.Body r = inl payload
    /\ parseSignature (http.Header_Get r HeaderSignature) = inl (ts, h)
    /\ h = expectedHash ts payload secret
    /\ expired now ts tolerance = false
    /\ RawPayload event = payload
    /\ (http.Header_Get r HeaderDelivery = ""
        \/ strconv.ParseInt (http.Header_Get r HeaderDelivery) = Some 0
        \/ strconv.ParseInt (http.Header_Get r HeaderDelivery) = Some ts).
Proof.
  unfold VerifyWebhookFromRequest. cbv zeta.
  destruct (String.eqb_spec (http.Header_Get r HeaderSignature) "")
    as [Hs | Hs]; [discriminate |].
  destruct (String.eqb_spec (http.Header_Get r HeaderDelivery) "")
    as [Hd | Hd].
  - destruct (http.Body r) as [payload | err]; [| discriminate].
    by_outcome U now (http.Header_Get r HeaderSignature) payload 0 secret
               tolerance; cbn [snd]; try discriminate.
    intros E. injection E as <-. exists payload, ts, h.
    repeat split; auto. now apply secureCompare_true_iff.
  - destruct (strconv.ParseInt (http.Header_Get r HeaderDelivery))
      as [d |] eqn:Hp; [| discriminate].
    destruct (http.Body r) as [payload | err]; [| discriminate].
    by_outcome U now (http.Header_Get r HeaderSignature) payload d secret
               tolerance; cbn [snd]; try discriminate.
    intros E. injection E as <-. exists payload, ts, h.
    repeat split; auto; [now apply secureCompare_true_iff |].
    right. destruct H2 as [-> | ->]; auto.
Qed.

(** An error of the adapter that matches neither sentinel of the verifier
    is a failed read of the body, or the payload-parse error for a payload
    whose signature passed. *)
Lemma adapter_error_other U now r secret tolerance err :
  snd (VerifyWebhookFromRequest U now r secret tolerance) = inr err ->
  request_Is err ErrInvalidWebhookSignature = false ->
  request_Is err ErrWebhookTimestampExpired = false ->
  (exists cause, http.Body r = inr cause /\ err = ErrorfReadBody cause)
  \/ (exists payload e ts h,
        http.Body r = inl payload
        /\ json_error_of U payload = Some e
        /\ err = OfVerifyWebhook (errPayload e)
        /\ parseSignature (http.Header_Get r HeaderSignature) = inl (ts, h)
        /\ h = expectedHash ts payload secret).
Proof.
  unfold VerifyWebhookFromRequest, json_error_of. cbv zeta.
  destruct (String.eqb_spec (http.Header_Get r HeaderSignature) "")
    as [Hs | Hs].
  { cbn [snd]. intros E. injection E as <-. discriminate. }
  destruct (if (http.Header_Get r HeaderDelivery =? "")%string then Some 0
            else strconv.ParseInt (http.Header_Get r HeaderDelivery))
    as [d |].
  2: { cbn [snd]. intros E. injection E as <-. discriminate. }
  destruct (http.Body r) as [payload | cause].
  2: { cbn [snd]. intros E. injection E as <-. eauto. }
  by_outcome U now (http.Header_Get r HeaderSignature) payload d secret
             tolerance; cbn [snd]; intros E; try discriminate E;
    injection E as <-; cbn [request_Is]; try discriminate.
  - intros A _. apply parseSignature_error_kind in H1. destruct H1 as [K _].
    rewrite K in A. discriminate A.
  - intros _ _. right. exists payload, e, ts, h. rewrite H5.
    repeat split; auto. now apply secureCompare_true_iff.
Qed.

(** X1. [VerifyWebhookFromRequest] returns an event only for a request whose
    body was read, whose signature header parses to a timestamp within the
    tolerance test and to the hex HMAC of ["<timestamp>.<body>"] under the
    secret, and whose delivery header is absent, or parses to 0 or to that
    timestamp; the event carries the body as its raw payload. *)
Theorem VerifyWebhookFromRequest_event_authentic
    U now r secret tolerance event :
  snd (VerifyWebhookFromRequest U now r secret tolerance) = inl event ->
  exists payload ts h,
    http.Body r = inl payload
    /\ parseSignature (http.Header_Get r HeaderSignature) = inl (ts, h)
    /\ h = expectedHash ts payload secret
    /\ expired now ts tolerance = false
    /\ RawPayload event = payload
    /\ (http.Header_Get r HeaderDelivery = ""
        \/ strconv.ParseInt (http.Header_Get r HeaderDelivery) = Some 0
        \/ strconv.ParseInt (http.Header_Get r HeaderDelivery) = Some ts).
Proof. apply adapter_event. Qed.

Lemma VerifyWebhookFromRequest_event_authentic_witness :
  snd (VerifyWebhookFromRequest sampleUnmarshal 1700000000
         (webhookRequest
            "t=1700000000,v1=87d3ed18b9b403e7da0fc3a3ae8b9394303805a049ea06f87c2ef4380b521fa9"
            "1700000000" (list_byte_of_string "{}"))
         "test-secret" DefaultWebhookTolerance)
  = inl (set_RawPayload zeroEvent (list_byte_of_string "{}"))
  /\ exists ts h,
       parseSignature
         "t=1700000000,v1=87d3ed18b9b403e7da0fc3a3ae8b9394303805a049ea06f87c2ef4380b521fa9"
       = inl (ts, h)
       /\ h = expectedHash ts (list_byte_of_string "{}") "test-secret".
Proof.
  assert (E : snd (VerifyWebhookFromRequest sampleUnmarshal 1700000000
         (webhookRequest
            "t=1700000000,v1=87d3ed18b9b403e7da0fc3a3ae8b9394303805a049ea06f87c2ef4380b521fa9"
            "1700000000" (list_byte_of_string "{}"))
         "test-secret" DefaultWebhookTolerance)
       = inl (set_RawPayload zeroEvent (list_byte_of_string "{}")))
    by (vm_compute; reflexivity).
  split; [exact E |].
  destruct (VerifyWebhookFromRequest_event_authentic _ _ _ _ _ _ E)
    as (payload & ts & h & Hb & Hp & Hh & _).
  cbn in Hb. injection Hb as <-. exists ts, h. auto.
Defined.


(** X3. A delivery header that parses to 0 ([0], [-0], [+000], ...) has the
    effect of an absent one: the cross-check of the timestamps is skipped. *)
Theorem VerifyWebhookFromRequest_delivery_zero U now r r' secret tolerance :
  http.Header_Get r HeaderSignature = http.Header_Get r' HeaderSignature ->
  http.Body r = http.Body r' ->
  http.Header_Get r HeaderDelivery = "" ->
  strconv.ParseInt (http.Header_Get r' HeaderDelivery) = Some 0 ->
  VerifyWebhookFromRequest U now r' secret tolerance
  = VerifyWebhookFromRequest U now r secret tolerance.
Proof.
  intros Hs Hb Hd Hz. unfold VerifyWebhookFromRequest. cbv zeta.
  rewrite Hs, Hb, Hd, Hz. cbn [String.eqb].
  now destruct (http.Header_Get r' HeaderDelivery =? "")%string.
Qed.

Lemma VerifyWebhookFromRequest_delivery_zero_witness :
  VerifyWebhookFromRequest sampleUnmarshal 1700000000
    (webhookRequest "t=1700000000,v1=abc" "-000" (list_byte_of_string "{}"))
    "test-secret" DefaultWebhookTolerance
  = VerifyWebhookFromRequest sampleUnmarshal 1700000000
      (webhookRequest "t=1700000000,v1=abc" "" (list_byte_of_string "{}"))
      "test-secret" DefaultWebhookTolerance.
Proof.
  apply (VerifyWebhookFromRequest_delivery_zero sampleUnmarshal 1700000000
           (webhookRequest "t=1700000000,v1=abc" ""
                           (list_byte_of_string "{}"))
           (webhookRequest "t=1700000000,v1=abc" "-000"
                           (list_byte_of_string "{}")));
    reflexivity.
Defined.

(** X4. The round trip through a request (TestVerifyWebhookFromRequest_
    Success): with the token generated for a payload as signature header,
    the decimal timestamp as delivery header and the payload as body, the
    adapter returns the decoded event, when the secret is not empty, the
    timestamp is a non-zero int64 within the tolerance and the payload
    decodes. *)
Theorem VerifyWebhookFromRequest_round_trip
    U now payload secret ts tolerance event :
  secret <> "" ->
  int64 ts -> ts <> 0 ->
  Z.abs (now - ts) * time.Second <= tolerance -> tolerance < 2 ^ 63 ->
  U (list_byte_of_string payload) = inl event ->
  snd (VerifyWebhookFromRequest U now
         (webhookRequest (generateTestSignature payload secret ts)
                         (strconv.FormatInt ts)
                         (list_byte_of_string payload))
         secret tolerance)
  = inl (set_RawPayload event (list_byte_of_string payload)).
Proof.
  intros Hs Hi Hz Hw Ht Hu.
  pose proof (generateTestSignature_parses payload secret ts Hi Hz) as Hp.
  rewrite (VerifyWebhookFromRequest_delegates U now _ secret tolerance ts).
  - cbn [webhookRequest http.Body].
    change (http.Header_Get (webhookRequest _ _ _) HeaderSignature)
      with (generateTestSignature payload secret ts).
    rewrite (VerifyWebhook_verified U now _ _ ts secret tolerance ts
               (expectedHash ts (list_byte_of_string payload) secret) event);
      auto using within_tolerance.
  - change (http.Header_Get (webhookRequest _ _ _) HeaderSignature)
      with (generateTestSignature payload secret ts).
    intros E. rewrite E in Hp. discriminate Hp.
  - change (http.Header_Get (webhookRequest _ _ _) HeaderDelivery)
      with (strconv.FormatInt ts).
    rewrite ParseInt_FormatInt by exact Hi.
    destruct (String.eqb_spec (strconv.FormatInt ts) "") as [E |];
      [| reflexivity].
    pose proof (ParseInt_FormatInt ts Hi) as Hq. rewrite E in Hq.
    discriminate Hq.
Qed.

Lemma VerifyWebhookFromRequest_round_trip_witness :
  Z.abs (1700000060 - 1700000000) * time.Second <= DefaultWebhookTolerance
  /\ snd (VerifyWebhookFromRequest sampleUnmarshal 1700000060
            (webhookRequest
               (generateTestSignature "{}" "test-secret" 1700000000)
               (strconv.FormatInt 1700000000) (list_byte_of_string "{}"))
            "test-secret" DefaultWebhookTolerance)
     = inl (set_RawPayload zeroEvent (list_byte_of_string "{}")).
Proof.
  split; [vm_compute; discriminate |].
  apply (VerifyWebhookFromRequest_round_trip sampleUnmarshal 1700000060 "{}"
           "test-secret" 1700000000 DefaultWebhookTolerance zeroEvent).
  - discriminate.
  - unfold int64. lia.
  - discriminate.
  - vm_compute. discriminate.
  - reflexivity.
  - reflexivity.
Defined.

(** ** More on the token and the tolerance *)

Lemma parseParts_values (p1 p2 : list string) :
  valuesOf "t" (flat_map fieldOf p1) = valuesOf "t" (flat_map fieldOf p2) ->
  valuesOf "v1" (flat_map fieldOf p1) = valuesOf "v1" (flat_map fieldOf p2) ->
  parseParts p1 0 "" = parseParts p2 0 "".
Proof.
  intros Ht Hv.
  assert (Hiff : forall t h, parseParts p1 0 "" = inl (t, h)
                             <-> parseParts p2 0 "" = inl (t, h)).
  { intros t h. rewrite !parseParts_inl. unfold valueOf. now rewrite Ht, Hv. }
  destruct (parseParts p1 0 "") as [[t1 h1] | e1] eqn:E1.
  - symmetry. now apply Hiff.
  - destruct (parseParts p2 0 "") as [[t2 h2] | e2] eqn:E2.
    + assert (C : @inr (Z * string) error e1 = inl (t2, h2))
        by now apply Hiff.
      discriminate C.
    + apply parseParts_error_kind in E1, E2. congruence.
Qed.

(** X5. The result of [parseSignature], error included, depends only on the
    values given to [t], in order, and on those given to [v1], in order,
    once the header has two segments: the order of the fields among each
    other, the white space around them and the other fields do not
    matter. *)
Theorem parseSignature_depends_on_values (s1 s2 : string) :
  (2 <= List.length (strings.Split s1 ","))%nat ->
  (2 <= List.length (strings.Split s2 ","))%nat ->
  valuesOf "t" (fields s1) = valuesOf "t" (fields s2) ->
  valuesOf "v1" (fields s1) = valuesOf "v1" (fields s2) ->
  parseSignature s1 = parseSignature s2.
Proof.
  intros H1 H2 Ht Hv. unfold parseSignature.
  destruct (Nat.ltb_spec (List.length (strings.Split s1 ",")) 2); [lia |].
  destruct (Nat.ltb_spec (List.length (strings.Split s2 ",")) 2); [lia |].
  now rewrite (parseParts_values _ (strings.Split s2 ",") Ht Hv).
Qed.

Lemma parseSignature_depends_on_values_witness :
  parseSignature " v1 = abc ,nonce=7, t=1700000000"
  = parseSignature "t=1700000000,v1=abc"
  /\ parseSignature "v1=abc,t=x" = parseSignature "t=x,v1=abc,,".
Proof.
  split; apply parseSignature_depends_on_values;
    try (vm_compute; reflexivity); vm_compute; lia.
Defined.

Lemma EncodeToString_length (src : list Z) :
  String.length (hex.EncodeToString src) = (2 * List.length src)%nat.
Proof.
  induction src as [| v src IH]; [reflexivity |].
  cbn [hex.EncodeToString String.length List.length]. rewrite IH. lia.
Qed.

Lemma hex_digit_lower (n : Z) : lowerHex (hex.digit n) = true.
Proof.
  unfold hex.digit. generalize (Z.to_nat n). intros k.
  do 16 (destruct k as [| k]; [reflexivity |]).
  reflexivity.
Qed.

Lemma EncodeToString_lower (src : list Z) :
  string_forall lowerHex (hex.EncodeToString src) = true.
Proof.
  induction src as [| v src IH]; cbn [hex.EncodeToString string_forall].
  - reflexivity.
  - now rewrite !hex_digit_lower, IH.
Qed.

(** X6. [computeHMAC] always returns 64 digits of lower-case hexadecimal;
    so [VerifyWebhook] returns no event for a token whose hash is not 64
    characters long or has another character, an upper-case digit for
    one. *)
Theorem computeHMAC_shape :
  (forall data secret,
     String.length (computeHMAC data secret) = 64%nat
     /\ string_forall lowerHex (computeHMAC data secret) = true)
  /\ (forall U now signature payload d secret tolerance ts h,
        parseSignature signature = inl (ts, h) ->
        String.length h <> 64%nat \/ string_forall lowerHex h = false ->
        event_of (VerifyWebhook U now signature payload d secret tolerance)
        = None).
Proof.
  assert (S : forall data secret,
             String.length (computeHMAC data secret) = 64%nat
             /\ string_forall lowerHex (computeHMAC data secret) = true).
  { intros data secret. unfold computeHMAC.
    rewrite EncodeToString_length, hmac_Sum_length.
    split; [reflexivity | apply EncodeToString_lower]. }
  split; [exact S |].
  intros U now signature payload d secret tolerance ts h Hp Hh.
  by_outcome U now signature payload d secret tolerance;
    unfold event_of; cbn [snd]; try reflexivity.
  exfalso. rewrite Hp in H1. injection H1 as <- <-.
  apply secureCompare_true_iff in H4.
  destruct (S (list_byte_of_string (signedPayload ts payload)) secret)
    as [Sl Sh].
  unfold expectedHash in H4. rewrite <- H4 in Sl, Sh.
  destruct Hh as [Hh | Hh]; congruence.
Qed.

(** X7. The tolerance test overflows at every clock: a token stamped 10^10
    seconds (about 317 years) after the clock, or before it, passes the
    test for every tolerance that is not negative, and a token generated
    for that timestamp verifies. *)
Theorem tolerance_test_wraps_at_every_clock
    (U : list byte -> WebhookEvent + json_error)
    now payload secret tolerance event ts :
  ts = now + 10000000000 \/ ts = now - 10000000000 ->
  int64 ts -> ts <> 0 ->
  0 <= tolerance ->
  secret <> "" ->
  U (list_byte_of_string payload) = inl event ->
  Z.abs (now - ts) = 10000000000
  /\ expired now ts tolerance = false
  /\ event_of
       (VerifyWebhook U now (generateTestSignature payload secret ts)
                      (list_byte_of_string payload) 0 secret tolerance)
     = Some (set_RawPayload event (list_byte_of_string payload)).
Proof.
  intros Hts Hi Hz Ht Hs Hu.
  assert (Ha : age now ts = 10000000000).
  { unfold age. destruct Hts as [-> | ->].
    - replace (now - (now + 10000000000)) with (-10000000000) by lia.
      reflexivity.
    - replace (now - (now - 10000000000)) with 10000000000 by lia.
      reflexivity. }
  assert (He : expired now ts tolerance = false).
  { unfold expired. rewrite Ha.
    change (wrap64 (10000000000 * time.Second))
      with (-8446744073709551616). lia. }
  split; [lia |]. split; [exact He |].
  rewrite (VerifyWebhook_verified U now _ _ 0 secret tolerance ts
             (expectedHash ts (list_byte_of_string payload) secret) event);
    auto using generateTestSignature_parses.
Qed.

Lemma tolerance_test_wraps_at_every_clock_witness :
  Z.abs (1900000000 - 11900000000) = 10000000000
  /\ expired 1900000000 11900000000 DefaultWebhookTolerance = false
  /\ event_of
       (VerifyWebhook sampleUnmarshal 1900000000
          (generateTestSignature "{}" "test-secret" 11900000000)
          (list_byte_of_string "{}") 0 "test-secret" DefaultWebhookTolerance)
     = Some (set_RawPayload zeroEvent (list_byte_of_string "{}")).
Proof.
  apply (tolerance_test_wraps_at_every_clock sampleUnmarshal 1900000000 "{}"
           "test-secret" DefaultWebhookTolerance zeroEvent 11900000000).
  - now left.
  - unfold int64. lia.
  - discriminate.
  - vm_compute. discriminate.
  - discriminate.
  - reflexivity.
Defined.

(** ** API errors *)

Lemma APIError_Is_status (e : APIError.t) (s : sentinel) :
  APIError.Is e (New s) = true <->
  (s = InvalidRequest /\ APIError.StatusCode e = 400)
  \/ (s = Unauthorized /\ APIError.StatusCode e = 401)
  \/ (s = Validation /\ APIError.StatusCode e = 422)
  \/ (s = RateLimited /\ APIError.StatusCode e = 429)
  \/ (s = ServerError /\ 500 <= APIError.StatusCode e).
Proof.
  unfold APIError.Is, APIError.Unwrap.
  destruct (Z.eqb_spec (APIError.StatusCode e) 400) as [H0 | H0];
  [| destruct (Z.eqb_spec (APIError.StatusCode e) 401) as [H1 | H1];
   [| destruct (Z.eqb_spec (APIError.StatusCode e) 422) as [H2 | H2];
    [| destruct (Z.eqb_spec (APIError.StatusCode e) 429) as [H3 | H3];
     [| destruct (Z.leb_spec 500 (APIError.StatusCode e)) as [H4 | H4]]]]].
  all: split;
    [ intros A; destruct s; try discriminate A; intuition lia
    | intros [[-> ?] | [[-> ?] | [[-> ?] | [[-> ?] | [-> ?]]]]];
      try lia; reflexivity ].
Qed.

(** X8. An [*APIError] matches a sentinel by its status code alone: 400 is
    [ErrInvalidRequest], 401 [ErrUnauthorized], 422 [ErrValidation], 429
    [ErrRateLimited], 500 and above [ErrServerError]; it matches no other
    sentinel and never two; every other status (403, 404, 409, ...) matches
    none. *)
Theorem APIError_Is_by_status :
  forall (e : APIError.t) (s : sentinel),
    let code := APIError.StatusCode e in
    (APIError.Is e (New s) = true <->
     (s = InvalidRequest /\ code = 400)
     \/ (s = Unauthorized /\ code = 401)
     \/ (s = Validation /\ code = 422)
     \/ (s = RateLimited /\ code = 429)
     \/ (s = ServerError /\ 500 <= code))
    /\ (forall s', APIError.Is e (New s) = true ->
                   APIError.Is e (New s') = true -> s = s')
    /\ (code < 500 -> code <> 400 -> code <> 401 -> code <> 422 ->
        code <> 429 -> forall s', APIError.Is e (New s') = false).
Proof.
  intros e s code. subst code.
  split; [apply APIError_Is_status |]. split.
  - intros s'. rewrite !APIError_Is_status. intuition (subst; lia || auto).
  - intros H5 H0 H1 H2 H3 s'.
    destruct (APIError.Is e (New s')) eqn:E; [| reflexivity].
    apply APIError_Is_status in E. intuition lia.
Qed.

(** X9. The error that [parseAPIError] builds keeps the status code and the
    raw body, so its sentinel is that of the status whatever the body says:
    a body that names another status or error type changes nothing. *)
Theorem parseAPIError_by_status :
  forall U T (statusCode : Z) (body : list byte),
    let e := parseAPIError U T statusCode body in
    APIError.StatusCode e = statusCode
    /\ APIError.ResponseBody e = string_of_list_byte body
    /\ (forall U' T' body',
          APIError.Unwrap e
          = APIError.Unwrap (parseAPIError U' T' statusCode body'))
    /\ (forall s,
          APIError.Is e (New s) = true <->
          (s = InvalidRequest /\ statusCode = 400)
          \/ (s = Unauthorized /\ statusCode = 401)
          \/ (s = Validation /\ statusCode = 422)
          \/ (s = RateLimited /\ statusCode = 429)
          \/ (s = ServerError /\ 500 <= statusCode)).
Proof.
  intros U T statusCode body e.
  assert (Hc : forall U T body,
             APIError.StatusCode (parseAPIError U T statusCode body)
             = statusCode).
  { intros U0 T0 body0. unfold parseAPIError.
    destruct (U0 body0) as [errResp | err]; cbv zeta;
      match goal with |- context [if ?c then _ else _] => destruct c end;
      reflexivity. }
  split; [apply Hc |]. split.
  { subst e. unfold parseAPIError.
    destruct (U body) as [errResp | err]; cbv zeta;
      match goal with |- context [if ?c then _ else _] => destruct c end;
      reflexivity. }
  split.
  - intros U' T' body'. unfold APIError.Unwrap. subst e. now rewrite !Hc.
  - intros s. rewrite APIError_Is_status. subst e. now rewrite Hc.
Qed.

(** X10. The message of the error that [parseAPIError] builds: the
    [message] field of a JSON body, else its [error] field, else, for a body
    that is no JSON, the body itself; and the standard text of the status
    when that is empty. So the message is empty only for a status without
    a standard text. The error type and the field errors come from a JSON
    body only. *)
Theorem parseAPIError_message :
  forall U T (statusCode : Z) (body : list byte),
    let e := parseAPIError U T statusCode body in
    (APIError.Message e = "" -> T statusCode = "")
    /\ (forall errResp,
          U body = inl errResp ->
          APIError.Message e
          = (if negb (apiErrorResponse.Message errResp =? "")%string
             then apiErrorResponse.Message errResp
             else if negb (apiErrorResponse.Error errResp =? "")%string
                  then apiErrorResponse.Error errResp
                  else T statusCode)
          /\ APIError.ErrorType e = apiErrorResponse.ErrorType errResp
          /\ APIError.Errors e = apiErrorResponse.Errors errResp)
    /\ (forall err,
          U body = inr err ->
          APIError.Message e
          = (if (string_of_list_byte body =? "")%string then T statusCode
             else string_of_list_byte body)
          /\ APIError.ErrorType e = ""
          /\ APIError.Errors e = []).
Proof.
  intros U T statusCode body e. subst e. unfold parseAPIError.
  destruct (U body) as [errResp | err]; cbv zeta.
  - destruct (String.eqb_spec (apiErrorResponse.Message errResp) "")
      as [Hm | Hm];
      destruct (String.eqb_spec (apiErrorResponse.Error errResp) "")
        as [He | He];
      cbn [negb APIError.Message].
    + cbn [String.eqb APIError.Message APIError.ErrorType APIError.Errors].
      split; [auto |]. split; [| discriminate].
      intros r E. injection E as <-.
      rewrite Hm, He. cbn [String.eqb negb]. auto.
    + rewrite (eqb_empty_false _ He).
      cbn [APIError.Message APIError.ErrorType APIError.Errors].
      split; [contradiction |]. split; [| discriminate].
      intros r E. injection E as <-.
      rewrite Hm, (eqb_empty_false _ He). cbn [String.eqb negb]. auto.
    + rewrite (eqb_empty_false _ Hm).
      cbn [APIError.Message APIError.ErrorType APIError.Errors].
      split; [contradiction |]. split; [| discriminate].
      intros r E. injection E as <-.
      rewrite (eqb_empty_false _ Hm). cbn [negb]. auto.
    + rewrite (eqb_empty_false _ Hm).
      cbn [APIError.Message APIError.ErrorType APIError.Errors].
      split; [contradiction |]. split; [| discriminate].
      intros r E. injection E as <-.
      rewrite (eqb_empty_false _ Hm). cbn [negb]. auto.
  - cbn [APIError.Message].
    destruct (String.eqb_spec (string_of_list_byte body) "") as [Hb | Hb];
      cbn [APIError.Message APIError.ErrorType APIError.Errors].
    + split; [auto |]. split; [discriminate |]. auto.
    + split; [contradiction |]. split; [discriminate |]. auto.
Qed.

(** ** The email builder *)

Lemma length_zero_nil {A : Type} (l : list A) :
  (List.length l =? 0)%nat = true <-> l = [].
Proof. destruct l; cbn; split; congruence. Qed.

(** X11. [validate] accepts a builder exactly when the sender and the
    subject are not empty, there is a recipient, and the HTML body or the
    text body is not empty; and no method of the fluent interface other
    than [From], [To], [Subject], [HTML] and [Text] changes its answer. *)
Theorem validate_required_fields :
  (forall b,
     EmailBuilder.validate b = None <->
     emailPayload.From (EmailBuilder.payload b) <> ""
     /\ emailPayload.To (EmailBuilder.payload b) <> []
     /\ emailPayload.Subject (EmailBuilder.payload b) <> ""
     /\ (emailPayload.HTML (EmailBuilder.payload b) <> ""
         \/ emailPayload.Text (EmailBuilder.payload b) <> ""))
  /\ (forall m b,
        Fluent.required m = false ->
        EmailBuilder.validate (Fluent.call m b) = EmailBuilder.validate b).
Proof.
  split.
  - intros b. unfold EmailBuilder.validate.
    destruct (String.eqb_spec (emailPayload.From (EmailBuilder.payload b)) "")
      as [Hf | Hf]; [split; [discriminate | tauto] |].
    destruct (List.length (emailPayload.To (EmailBuilder.payload b)) =? 0)%nat
      eqn:Ht.
    { apply length_zero_nil in Ht. split; [discriminate | tauto]. }
    assert (Ht' : emailPayload.To (EmailBuilder.payload b) <> []).
    { intros E. apply length_zero_nil in E. congruence. }
    destruct (String.eqb_spec (emailPayload.Subject (EmailBuilder.payload b))
                              "") as [Hs | Hs];
      [split; [discriminate | tauto] |].
    destruct (String.eqb_spec (emailPayload.HTML (EmailBuilder.payload b)) "")
      as [Hh | Hh];
      destruct (String.eqb_spec (emailPayload.Text (EmailBuilder.payload b))
                                "") as [Hx | Hx]; cbn [andb];
      split; try discriminate; tauto.
  - intros m b Hm. destruct m; try discriminate Hm; reflexivity.
Qed.

Lemma call_lists (m : Fluent.method) (b : EmailBuilder.t) :
  let p := EmailBuilder.payload b in
  let p' := EmailBuilder.payload (Fluent.call m b) in
  emailPayload.To p' = (emailPayload.To p ++ Fluent.recipients [m])%list
  /\ emailPayload.CC p' = (emailPayload.CC p ++ Fluent.copies [m])%list
  /\ emailPayload.BCC p' = (emailPayload.BCC p ++ Fluent.blindCopies [m])%list
  /\ emailPayload.ReplyTo p'
     = (emailPayload.ReplyTo p ++ Fluent.replies [m])%list
  /\ emailPayload.Attachments p'
     = (emailPayload.Attachments p ++ Fluent.attachments [m])%list
  /\ EmailBuilder.client (Fluent.call m b) = EmailBuilder.client b
  /\ EmailBuilder.ctx (Fluent.call m b) = EmailBuilder.ctx b.
Proof.
  destruct m; cbn; rewrite ?app_nil_r; repeat split; reflexivity.
Qed.

(** X12. Along any chain of calls of the fluent interface the recipients,
    the copies, the blind copies, the reply addresses and the attachments
    only grow: each list is what it was, followed by the arguments of the
    calls that add to it, in the order of the calls, whatever other calls
    come in between; the client and the context stay. *)
Theorem chain_lists_grow :
  forall (ms : list Fluent.method) (b : EmailBuilder.t),
    let p := EmailBuilder.payload b in
    let p' := EmailBuilder.payload (Fluent.chain ms b) in
    emailPayload.To p' = (emailPayload.To p ++ Fluent.recipients ms)%list
    /\ emailPayload.CC p' = (emailPayload.CC p ++ Fluent.copies ms)%list
    /\ emailPayload.BCC p'
       = (emailPayload.BCC p ++ Fluent.blindCopies ms)%list
    /\ emailPayload.ReplyTo p'
       = (emailPayload.ReplyTo p ++ Fluent.replies ms)%list
    /\ emailPayload.Attachments p'
       = (emailPayload.Attachments p ++ Fluent.attachments ms)%list
    /\ EmailBuilder.client (Fluent.chain ms b) = EmailBuilder.client b
    /\ EmailBuilder.ctx (Fluent.chain ms b) = EmailBuilder.ctx b.
Proof.
  induction ms as [| m ms IH]; intros b; cbv zeta.
  - cbn. rewrite !app_nil_r. repeat split; reflexivity.
  - change (Fluent.chain (m :: ms) b) with (Fluent.chain ms (Fluent.call m b)).
    specialize (IH (Fluent.call m b)). cbv zeta in IH.
    destruct IH as (I1 & I2 & I3 & I4 & I5 & I6 & I7).
    destruct (call_lists m b) as (C1 & C2 & C3 & C4 & C5 & C6 & C7).
    rewrite I1, I2, I3, I4, I5, I6, I7, C1, C2, C3, C4, C5, C6, C7.
    unfold Fluent.recipients, Fluent.copies, Fluent.blindCopies,
      Fluent.replies, Fluent.attachments.
    cbn [flat_map]. rewrite !app_nil_r, <- !app_assoc.
    repeat split; reflexivity.
Qed.

(** ** Maps *)

Lemma gomap_lookup_delete {V : Type} (m : gomap.t V) (k k' : string) :
  gomap.lookup (gomap.delete m k) k'
  = if (k =? k')%string then None else gomap.lookup m k'.
Proof.
  unfold gomap.lookup, gomap.delete.
  induction m as [| [a v] m IH]; cbn [filter find fst].
  - now destruct (k =? k')%string.
  - destruct (String.eqb_spec a k) as [-> | Hak]; cbn [negb find fst].
    + rewrite IH. destruct (String.eqb_spec k k'); reflexivity.
    + destruct (String.eqb_spec a k') as [-> | Hak']; [| exact IH].
      destruct (String.eqb_spec k k') as [-> | _];
        [contradiction | reflexivity].
Qed.

Lemma gomap_lookup_store {V : Type} (m : gomap.t V) (k k' : string) (v : V) :
  gomap.lookup (gomap.store m k v) k'
  = if (k =? k')%string then Some v else gomap.lookup m k'.
Proof.
  pose proof (gomap_lookup_delete m k k') as Hd.
  unfold gomap.store, gomap.lookup in *. cbn [find fst].
  destruct (k =? k')%string; [reflexivity | exact Hd].
Qed.

Lemma gomap_keys_delete {V : Type} (m : gomap.t V) (k k' : string) :
  In k' (gomap.keys (gomap.delete m k)) <-> In k' (gomap.keys m) /\ k' <> k.
Proof.
  unfold gomap.keys, gomap.delete. rewrite !in_map_iff. split.
  - intros ([a v] & <- & Hin). apply filter_In in Hin.
    destruct Hin as [Hin Hne]. cbn [fst] in *.
    apply negb_true_iff, String.eqb_neq in Hne.
    split; [exists (a, v); auto | exact Hne].
  - intros [([a v] & <- & Hin) Hne]. exists (a, v). split; [reflexivity |].
    apply filter_In. split; [exact Hin |]. cbn [fst] in *.
    now apply negb_true_iff, String.eqb_neq.
Qed.

Lemma gomap_NoDup_delete {V : Type} (m : gomap.t V) (k : string) :
  NoDup (gomap.keys m) -> NoDup (gomap.keys (gomap.delete m k)).
Proof.
  unfold gomap.keys, gomap.delete.
  induction m as [| [a v] m IH]; cbn [filter map fst]; [auto |].
  intros Hn. apply NoDup_cons_iff in Hn. destruct Hn as [Hni Hn].
  destruct (negb (a =? k)%string); [| auto].
  cbn [map fst]. constructor; [| auto].
  intros Hin. apply Hni.
  apply (gomap_keys_delete m k a) in Hin. tauto.
Qed.

Lemma gomap_NoDup_store {V : Type} (m : gomap.t V) (k : string) (v : V) :
  NoDup (gomap.keys m) -> NoDup (gomap.keys (gomap.store m k v)).
Proof.
  intros Hn. unfold gomap.store.
  change (gomap.keys ((k, v) :: gomap.delete m k))
    with (k :: gomap.keys (gomap.delete m k)).
  constructor; [| now apply gomap_NoDup_delete].
  intros Hin. apply gomap_keys_delete in Hin. tauto.
Qed.

Lemma gomap_lookup_None {V : Type} (m : gomap.t V) (k : string) :
  ~ In k (gomap.keys m) -> gomap.lookup m k = None.
Proof.
  unfold gomap.lookup, gomap.keys.
  induction m as [| [a v] m IH]; cbn [map find fst]; [reflexivity |].
  intros Hn. destruct (String.eqb_spec a k) as [-> | _].
  - exfalso. apply Hn. now left.
  - apply IH. intros Hin. apply Hn. now right.
Qed.

Lemma gomap_lookup_In {V : Type} (m : gomap.t V) (k : string) (v : V) :
  NoDup (gomap.keys m) ->
  gomap.lookup m k = Some v <-> In (k, v) m.
Proof.
  unfold gomap.lookup, gomap.keys.
  induction m as [| [a w] m IH]; cbn [map find fst snd].
  - intros _. split; [discriminate | contradiction].
  - intros Hn. apply NoDup_cons_iff in Hn. destruct Hn as [Hni Hn].
    destruct (String.eqb_spec a k) as [-> | Hne].
    + split.
      * intros E. injection E as ->. now left.
      * intros [E | Hin]; [now injection E as -> |].
        exfalso. apply Hni. apply in_map_iff. exists (k, v). auto.
    + rewrite (IH Hn). split; [now right |].
      intros [E | Hin]; [injection E as -> _; contradiction | exact Hin].
Qed.

Lemma gomap_storeAll (src : list (string * string)) :
  forall (m : gomap.t string) (k : string),
    NoDup (gomap.keys src) ->
    gomap.lookup (gomap.storeAll m src) k
    = match gomap.lookup src k with
      | Some v => Some v
      | None => gomap.lookup m k
      end.
Proof.
  induction src as [| [a v] src IH]; intros m k Hn; [reflexivity |].
  change (gomap.storeAll m ((a, v) :: src))
    with (gomap.storeAll (gomap.store m a v) src).
  change (gomap.keys ((a, v) :: src)) with (a :: gomap.keys src) in Hn.
  apply NoDup_cons_iff in Hn. destruct Hn as [Hni Hn].
  rewrite (IH _ _ Hn), gomap_lookup_store.
  assert (Hc : gomap.lookup ((a, v) :: src) k
               = if (a =? k)%string then Some v else gomap.lookup src k).
  { unfold gomap.lookup. cbn [find fst]. now destruct (a =? k)%string. }
  rewrite Hc.
  destruct (String.eqb_spec a k) as [-> | _]; [| reflexivity].
  now rewrite (gomap_lookup_None src k Hni).
Qed.

Lemma gomap_NoDup_storeAll (src : list (string * string)) :
  forall m : gomap.t string,
    NoDup (gomap.keys m) -> NoDup (gomap.keys (gomap.storeAll m src)).
Proof.
  induction src as [| [a v] src IH]; intros m Hn; [exact Hn |].
  change (gomap.storeAll m ((a, v) :: src))
    with (gomap.storeAll (gomap.store m a v) src).
  apply IH. now apply gomap_NoDup_store.
Qed.

Lemma made_keys_call (m : Fluent.method) (b : EmailBuilder.t) :
  NoDup (gomap.keys
           (EmailBuilder.made (emailPayload.Headers (EmailBuilder.payload b)))) ->
  NoDup (gomap.keys
           (EmailBuilder.made (emailPayload.Metadata (EmailBuilder.payload b)))) ->
  NoDup (gomap.keys
           (EmailBuilder.made
              (emailPayload.Headers
                 (EmailBuilder.payload (Fluent.call m b)))))
  /\ NoDup (gomap.keys
              (EmailBuilder.made
                 (emailPayload.Metadata
                    (EmailBuilder.payload (Fluent.call m b))))).
Proof.
  intros Hh Hm.
  destruct m; split; try assumption;
    cbn -[gomap.keys gomap.store gomap.storeAll];
    first [ now apply gomap_NoDup_store | now apply gomap_NoDup_storeAll ].
Qed.

(** X13. Custom headers and metadata behave as maps. [Header(key, value)]
    sets one name and keeps the others; [Headers(headers)] sets the names
    of [headers] and keeps the others, whatever the order in which the
    entries of [headers] are visited; the same holds of [MetadataValue] and
    [Metadata]. Along any chain of calls on a new builder a name is stored
    at most once. *)
Theorem headers_and_metadata_merge :
  forall (b : EmailBuilder.t) (key value : string)
         (entries : list (string * string)) (k : string),
    let headers p := EmailBuilder.made (emailPayload.Headers p) in
    let metadata p := EmailBuilder.made (emailPayload.Metadata p) in
    let p := EmailBuilder.payload b in
    gomap.lookup
      (headers (EmailBuilder.payload (EmailBuilder.Header key value b))) k
    = (if (key =? k)%string then Some value else gomap.lookup (headers p) k)
    /\ gomap.lookup
         (metadata
            (EmailBuilder.payload (EmailBuilder.MetadataValue key value b))) k
       = (if (key =? k)%string then Some value
          else gomap.lookup (metadata p) k)
    /\ (NoDup (gomap.keys entries) ->
        gomap.lookup
          (headers (EmailBuilder.payload (EmailBuilder.Headers entries b))) k
        = match gomap.lookup entries k with
          | Some v => Some v
          | None => gomap.lookup (headers p) k
          end
        /\ gomap.lookup
             (metadata
                (EmailBuilder.payload (EmailBuilder.Metadata entries b))) k
           = match gomap.lookup entries k with
             | Some v => Some v
             | None => gomap.lookup (metadata p) k
             end
        /\ forall v, gomap.lookup entries k = Some v <-> In (k, v) entries)
    /\ (forall ms c ctx,
          NoDup (gomap.keys
                   (headers
                      (EmailBuilder.payload
                         (Fluent.chain ms (Email c ctx)))))
          /\ NoDup (gomap.keys
                      (metadata
                         (EmailBuilder.payload
                            (Fluent.chain ms (Email c ctx)))))).
Proof.
  intros b key value entries k headers metadata p.
  subst headers metadata p. cbv beta.
  split; [apply gomap_lookup_store |].
  split; [apply gomap_lookup_store |].
  split.
  - intros Hn.
    split; [now apply gomap_storeAll |].
    split; [now apply gomap_storeAll |].
    intros v. now apply gomap_lookup_In.
  - intros ms c ctx.
    assert (G : forall b',
               NoDup (gomap.keys
                        (EmailBuilder.made
                           (emailPayload.Headers (EmailBuilder.payload b')))) ->
               NoDup (gomap.keys
                        (EmailBuilder.made
                           (emailPayload.Metadata (EmailBuilder.payload b')))) ->
               NoDup (gomap.keys
                        (EmailBuilder.made
                           (emailPayload.Headers
                              (EmailBuilder.payload (Fluent.chain ms b')))))
               /\ NoDup (gomap.keys
                           (EmailBuilder.made
                              (emailPayload.Metadata
                                 (EmailBuilder.payload
                                    (Fluent.chain ms b')))))).
    { induction ms as [| m ms IH]; intros b' Hh Hm; [now split |].
      change (Fluent.chain (m :: ms) b')
        with (Fluent.chain ms (Fluent.call m b')).
      destruct (made_keys_call m b' Hh Hm) as [Hh' Hm']. now apply IH. }
    apply G; constructor.
Qed.

(** ** The client *)

Lemma deref_app (h : Heap) (c : httpClient.t) (p : nat) :
  (p < List.length h)%nat -> deref (h ++ [c])%list p = deref h p.
Proof. intros H. unfold deref. now apply nth_error_app1. Qed.

Lemma deref_fresh (h : Heap) (c : httpClient.t) :
  deref (h ++ [c])%list (List.length h) = Some c /\ deref h (List.length h) = None.
Proof.
  unfold deref. split.
  - rewrite nth_error_app2 by lia. now rewrite Nat.sub_diag.
  - apply nth_error_None. lia.
Qed.

Lemma deref_Some_lt (h : Heap) (p : nat) (c : httpClient.t) :
  deref h p = Some c -> (p < List.length h)%nat.
Proof. intros H. apply nth_error_Some. unfold deref in H. congruence. Qed.

Lemma assign_length (h : Heap) :
  forall p c, List.length (assign h p c) = List.length h.
Proof.
  induction h as [| x h IH]; intros [| p] c; cbn; auto.
Qed.

Lemma deref_assign (h : Heap) :
  forall p q c,
    deref (assign h p c) q
    = if (p =? q)%nat then (if (p <? List.length h)%nat then Some c else None)
      else deref h q.
Proof.
  unfold deref.
  induction h as [| x h IH]; intros [| p] [| q] c; cbn [assign nth_error];
    try reflexivity.
  - now destruct (S p =? S q)%nat.
  - rewrite IH. reflexivity.
Qed.

Lemma applyOptions_provided (opts : list Client.Option) :
  Forall provided opts ->
  forall h c h' c',
    Client.applyOptions opts (h, c) = Some (h', c') ->
    Client.apiToken c' = Client.apiToken c
    /\ List.length h' = List.length h.
Proof.
  induction 1 as [| opt opts Hopt _ IH]; intros h c h' c' E.
  - cbn in E. injection E as <- <-. auto.
  - cbn [Client.applyOptions] in E.
    destruct Hopt as [u | timeout | client]; cbn in E.
    + apply IH in E. exact E.
    + destruct (Client.httpClient c) as [p |]; [| discriminate].
      destruct (deref h p) as [hc |]; [| discriminate].
      apply IH in E. now rewrite assign_length in E.
    + apply IH in E. exact E.
Qed.

(** X14. [New] fails exactly for the empty token, with [ErrInvalidAPIToken]
    itself and before any option runs. For another token and the options
    of the package, the client it returns carries that token, and the call
    allocates one [http.Client] and no more. *)
Theorem New_token :
  (forall opts h, Client.New "" opts h = Some (h, inr ErrInvalidAPIToken))
  /\ (forall tok opts h h' r,
        tok <> "" ->
        Forall provided opts ->
        Client.New tok opts h = Some (h', r) ->
        exists c, r = inl c
                  /\ Client.apiToken c = tok
                  /\ List.length h' = S (List.length h)).
Proof.
  split; [reflexivity |].
  intros tok opts h h' r Ht Hp. unfold Client.New, alloc.
  rewrite eqb_empty_false by exact Ht.
  destruct (Client.applyOptions opts _) as [[h2 c'] |] eqn:E;
    [| discriminate].
  intros R. injection R as <- <-.
  apply (applyOptions_provided opts Hp) in E. destruct E as [Ea El].
  exists c'. split; [reflexivity |]. split; [exact Ea |].
  rewrite El, length_app. cbn. lia.
Qed.

(** X15. [WithHTTPClient] and [WithTimeout] do not commute. After
    [WithHTTPClient(p)] the timeout of [WithTimeout] is written into the
    caller's own [http.Client]; before it, the timeout goes to the default
    client, which the later option replaces, and the caller's client keeps
    its timeout. With a nil client, [WithTimeout] panics. *)
Theorem WithHTTPClient_WithTimeout_order tok h p hc timeout :
  tok <> "" ->
  deref h p = Some hc ->
  (exists h1 c1,
     Client.New tok [Client.WithHTTPClient (Some p);
                     Client.WithTimeout timeout] h
     = Some (h1, inl c1)
     /\ Client.httpClient c1 = Some p
     /\ deref h1 p
        = Some {| httpClient.Transport := httpClient.Transport hc;
                  httpClient.Timeout := timeout |})
  /\ (exists h2 c2,
        Client.New tok [Client.WithTimeout timeout;
                        Client.WithHTTPClient (Some p)] h
        = Some (h2, inl c2)
        /\ Client.httpClient c2 = Some p
        /\ deref h2 p = Some hc)
  /\ Client.New tok [Client.WithHTTPClient None; Client.WithTimeout timeout] h
     = None.
Proof.
  intros Ht Hd. pose proof (deref_Some_lt h p hc Hd) as Hlt.
  unfold Client.New, alloc. rewrite eqb_empty_false by exact Ht.
  split; [| split].
  - cbn -[deref assign DefaultTimeout]. rewrite deref_app by exact Hlt.
    rewrite Hd.
    eexists _, _. split; [reflexivity |]. split; [reflexivity |].
    rewrite deref_assign, Nat.eqb_refl, length_app.
    replace (p <? List.length h + List.length [_])%nat with true; [easy |].
    symmetry. apply Nat.ltb_lt. lia.
  - cbn -[deref assign DefaultTimeout].
    destruct (deref_fresh h {| httpClient.Transport := 0;
                                    httpClient.Timeout := DefaultTimeout |})
      as [Hf _].
    rewrite Hf. eexists _, _. split; [reflexivity |]. split; [reflexivity |].
    rewrite deref_assign.
    destruct (Nat.eqb_spec (List.length h) p) as [E | _]; [lia |].
    now rewrite deref_app.
  - reflexivity.
Qed.

Lemma WithHTTPClient_WithTimeout_order_witness :
  let own := {| httpClient.Transport := 7;
                httpClient.Timeout := 120 * time.Second |} in
  exists h2 c2,
    Client.New "test-token"
      [Client.WithTimeout (60 * time.Second); Client.WithHTTPClient (Some 0%nat)]
      [own]
    = Some (h2, inl c2)
    /\ Client.httpClient c2 = Some 0%nat
    /\ deref h2 0 = Some own.
Proof.
  intros own.
  apply (WithHTTPClient_WithTimeout_order "test-token" [own] 0 own
           (60 * time.Second)).
  - discriminate.
  - reflexivity.
Defined.

(** ** Sending *)

Lemma rev_string_append_char (s : string) (c : ascii) :
  rev_string (s ++ String c "") = String c (rev_string s).
Proof.
  unfold rev_string.
  assert (E : list_ascii_of_string (s ++ String c "")
              = (list_ascii_of_string s ++ [c])%list).
  { induction s as [| a s IH]; cbn; [reflexivity | now rewrite IH]. }
  rewrite E, rev_app_distr. reflexivity.
Qed.

Lemma TrimSuffix_append (s : string) (c : ascii) :
  TrimSuffix (s ++ String c "") c = s.
Proof.
  unfold TrimSuffix. rewrite rev_string_append_char, Ascii.eqb_refl.
  apply rev_string_involutive.
Qed.

Section SendProperties.

Variable json_Marshal : emailPayload.t -> list byte + marshal_error.
Variable http_NewRequest_error : string -> option url_error.
Variable Do : option nat -> Outgoing.t -> Response.t + transport_error.
Variable json_Unmarshal_SendResponse : list byte -> SendResponse + json_error.
Variable json_Unmarshal_apiErrorResponse :
  list byte -> apiErrorResponse.t + json_error.
Variable http_StatusText : Z -> string.

Local Abbreviation send :=
  (Send json_Marshal http_NewRequest_error Do json_Unmarshal_SendResponse
        json_Unmarshal_apiErrorResponse http_StatusText).

Lemma Send_sent (b : EmailBuilder.t) :
  fst (send b)
  = match EmailBuilder.validate b with
    | Some _ => None
    | None =>
        match json_Marshal (EmailBuilder.payload b) with
        | inr _ => None
        | inl jsonData =>
            match http_NewRequest_error (sendURL b) with
            | Some _ => None
            | None =>
                Some {| Outgoing.Method := http.MethodPost;
                        Outgoing.URL := sendURL b;
                        Outgoing.Header := sendHeader b;
                        Outgoing.Body := jsonData |}
            end
        end
    end.
Proof.
  unfold Send.
  destruct (EmailBuilder.validate b); [reflexivity |].
  destruct (json_Marshal (EmailBuilder.payload b)); [| reflexivity].
  cbv zeta.
  destruct (http_NewRequest_error (sendURL b)); [reflexivity |].
  destruct (Do _ _) as [resp | err]; [| reflexivity].
  destruct (Response.Body resp) as [body | err]; [| reflexivity].
  destruct (400 <=? Response.StatusCode resp); [reflexivity |].
  now destruct (json_Unmarshal_SendResponse body).
Qed.

(** X16. [Send] hands a request to the HTTP client only for a builder that
    [validate] accepts; for another it fails with an error that matches
    [ErrInvalidRequest], as for a new builder. The request is a POST to the
    base URL, one trailing slash removed, followed by [/send]; it carries
    the API token of the client and the marshalled payload, and the header
    [Idempotency-Key] exactly when the key is not empty. *)
Theorem Send_request :
  (forall b req,
     fst (send b) = Some req ->
     EmailBuilder.validate b = None
     /\ Outgoing.Method req = "POST"
     /\ Outgoing.URL req
        = (TrimSuffix (Client.baseURL (EmailBuilder.client b)) "/"
           ++ "/send")%string
     /\ json_Marshal (EmailBuilder.payload b) = inl (Outgoing.Body req)
     /\ In ("x-lettermint-token", Client.apiToken (EmailBuilder.client b))
           (Outgoing.Header req)
     /\ (forall v, In ("Idempotency-Key", v) (Outgoing.Header req) <->
                   v = EmailBuilder.idempotencyKey b /\ v <> ""))
  /\ (forall b msg,
        EmailBuilder.validate b = Some msg ->
        send b = (None, inr (ErrorfInvalidRequest msg))
        /\ send_Is (ErrorfInvalidRequest msg) ErrInvalidRequest = true)
  /\ (forall c ctx,
        send (Email c ctx)
        = (None, inr (ErrorfInvalidRequest "from address is required")))
  /\ (forall base : string, TrimSuffix (base ++ "/") "/" = base).
Proof.
  split; [| split; [| split]].
  - intros b req. rewrite Send_sent.
    destruct (EmailBuilder.validate b) as [msg |]; [discriminate |].
    destruct (json_Marshal (EmailBuilder.payload b)) as [jsonData | err];
      [| discriminate].
    destruct (http_NewRequest_error (sendURL b)); [discriminate |].
    intros E. injection E as <-.
    cbn [Outgoing.Method Outgoing.URL Outgoing.Header Outgoing.Body].
    split; [reflexivity |]. split; [reflexivity |].
    split; [reflexivity |]. split; [reflexivity |].
    split; [unfold sendHeader; cbn; auto |].
    intros v. unfold sendHeader.
    destruct (String.eqb_spec (EmailBuilder.idempotencyKey b) "")
      as [Hk | Hk]; cbn; split.
    + intuition congruence.
    + intros [-> Hne]. contradiction.
    + intros [E | [E | [E | [E | [E | []]]]]]; try discriminate E.
      injection E as <-. auto.
    + intros [-> _]. auto 10.
  - intros b msg Hv. unfold Send. rewrite Hv. now split.
  - reflexivity.
  - intros base. apply (TrimSuffix_append base "/").
Qed.


End SendProperties.

(** ** The example handler *)

(** X18. The handler of the example answers 200 exactly to a POST request
    that [VerifyWebhookFromRequest] accepts, so only to a request whose
    signature header carries the HMAC of its body under the secret, with a
    timestamp that passes the tolerance test of 5 minutes. It answers 405
    exactly to the requests of another method, and 400 only when the body
    cannot be read or a payload whose signature passed does not decode;
    every other request gets 401. *)
Theorem webhookHandler_replies :
  forall U now secret (r : http.Request),
    let p := example.webhookHandler U now secret r in
    (p = example.Acknowledged <->
     http.Method r = "POST"
     /\ exists event,
          snd (VerifyWebhookFromRequest U now r secret
                                        DefaultWebhookTolerance) = inl event)
    /\ (p = example.Acknowledged ->
        exists payload ts h,
          http.Body r = inl payload
          /\ parseSignature (http.Header_Get r HeaderSignature) = inl (ts, h)
          /\ h = expectedHash ts payload secret
          /\ expired now ts DefaultWebhookTolerance = false)
    /\ (example.status p = 405 <-> http.Method r <> "POST")
    /\ (http.Method r <> "POST" ->
        p = example.Error "Method not allowed" 405)
    /\ (example.status p = 400 ->
        (exists cause, http.Body r = inr cause)
        \/ exists payload e ts h,
             http.Body r = inl payload
             /\ json_error_of U payload = Some e
             /\ parseSignature (http.Header_Get r HeaderSignature)
                = inl (ts, h)
             /\ h = expectedHash ts payload secret)
    /\ In (example.status p) [200; 400; 401; 405].
Proof.
  intros U now secret r p. subst p. unfold example.webhookHandler.
  destruct (String.eqb_spec (http.Method r) http.MethodPost) as [Hm | Hm];
    cbn [negb].
  2: { split; [split; [discriminate | intros [? _]; contradiction] |].
       split; [discriminate |].
       split; [split; [intros _; exact Hm | reflexivity] |].
       split; [reflexivity |].
       split; [discriminate | cbn; auto]. }
  assert (P : forall q, example.status q <> 405 ->
                        example.status q = 405 <-> http.Method r <> "POST").
  { intros q Hq. split; [intros E | intros E]; contradiction. }
  destruct (snd (VerifyWebhookFromRequest U now r secret
                                          DefaultWebhookTolerance))
    as [event | err] eqn:E.
  - split; [split; eauto |].
    split.
    { intros _. destruct (adapter_event U now r secret _ event E)
        as (payload & ts & h & Hb & Hp & Hh & He & _).
      exists payload, ts, h. auto. }
    split; [apply P; discriminate |].
    split; [intros; contradiction |].
    split; [discriminate | cbn; auto].
  - destruct (request_Is err ErrInvalidWebhookSignature) eqn:Ki;
      [| destruct (request_Is err ErrWebhookTimestampExpired) eqn:Ke].
    + split; [split; [discriminate | intros [_ [ev Hev]]; discriminate Hev] |].
      split; [discriminate |]. split; [apply P; discriminate |].
      split; [intros; contradiction |].
      split; [discriminate | cbn; auto].
    + split; [split; [discriminate | intros [_ [ev Hev]]; discriminate Hev] |].
      split; [discriminate |]. split; [apply P; discriminate |].
      split; [intros; contradiction |].
      split; [discriminate | cbn; auto].
    + split; [split; [discriminate | intros [_ [ev Hev]]; discriminate Hev] |].
      split; [discriminate |]. split; [apply P; discriminate |].
      split; [intros; contradiction |].
      split; [| cbn; auto].
      intros _.
      destruct (adapter_error_other U now r secret _ err E Ki Ke)
        as [(cause & Hb & _) | (payload & e & ts & h & Hb & Hu & _ & Hp & Hh)].
      * left. eauto.
      * right. exists payload, e, ts, h. auto.
Qed.

(** X19. For a POST request whose body can be read, whose signature header
    parses and whose delivery header is absent or agrees, the handler of
    the example, run with a secret, answers [Webhook expired] exactly when
    the timestamp of the token is more than 300 seconds from the clock, in
    the past or in the future, as long as that distance in nanoseconds
    fits an int64. *)
Theorem webhookHandler_expired U now secret r payload ts h :
  http.Method r = "POST" ->
  secret <> "" ->
  http.Body r = inl payload ->
  parseSignature (http.Header_Get r HeaderSignature) = inl (ts, h) ->
  http.Header_Get r HeaderDelivery = ""
  \/ strconv.ParseInt (http.Header_Get r HeaderDelivery) = Some 0
  \/ strconv.ParseInt (http.Header_Get r HeaderDelivery) = Some ts ->
  Z.abs (now - ts) * time.Second < 2 ^ 63 ->
  example.webhookHandler U now secret r
  = example.Error "Webhook expired" 401
  <-> Z.abs (now - ts) > 300.
Proof.
  intros Hm Hs Hb Hp Hd Hr.
  assert (Hsig : http.Header_Get r HeaderSignature <> "").
  { intros E. rewrite E in Hp. discriminate Hp. }
  assert (Hdel : exists d,
             (if (http.Header_Get r HeaderDelivery =? "")%string then Some 0
              else strconv.ParseInt (http.Header_Get r HeaderDelivery))
             = Some d /\ (d = 0 \/ d = ts)).
  { destruct (String.eqb_spec (http.Header_Get r HeaderDelivery) "")
      as [E | E]; [exists 0; auto |].
    destruct Hd as [Hd | [Hd | Hd]]; [contradiction | |]; rewrite Hd; eauto. }
  destruct Hdel as (d & Hdd & Hd').
  unfold example.webhookHandler.
  replace (http.Method r =? http.MethodPost)%string with true
    by (rewrite Hm; reflexivity).
  cbn [negb].
  rewrite (VerifyWebhookFromRequest_delegates U now r secret _ d Hsig Hdd), Hb.
  cbn [snd].
  assert (Ht : 0 <= DefaultWebhookTolerance) by (vm_compute; discriminate).
  pose proof (tolerance_gate_in_range U now _ payload d secret
                DefaultWebhookTolerance ts h Hs Hp Hd' Hr Ht) as T.
  cbv zeta in T.
  change (DefaultWebhookTolerance / time.Second) with 300 in T.
  destruct T as [T1 T2]. unfold error_of in T1.
  destruct (snd (VerifyWebhook U now (http.Header_Get r HeaderSignature)
                               payload d secret DefaultWebhookTolerance))
    as [event | e] eqn:E.
  - split; [discriminate |]. intros G. apply T2 in G. rewrite G in E.
    discriminate E.
  - cbn [request_Is].
    destruct (errors.Is e ErrInvalidWebhookSignature) eqn:Ki;
      [| destruct (errors.Is e ErrWebhookTimestampExpired) eqn:Ke].
    + split; [discriminate |]. intros G. apply T2 in G. rewrite G in E.
      cbn [snd] in E. injection E as <-. discriminate Ki.
    + split; [intros _ | reflexivity]. apply T1. eauto.
    + split; [discriminate |]. intros G. apply T2 in G. rewrite G in E.
      cbn [snd] in E. injection E as <-. discriminate Ke.
Qed.

Lemma webhookHandler_expired_witness :
  example.webhookHandler sampleUnmarshal 1700000301 "test-secret"
    (webhookRequest "t=1700000000,v1=abc" "" (list_byte_of_string "{}"))
  = example.Error "Webhook expired" 401.
Proof.
  apply (webhookHandler_expired sampleUnmarshal 1700000301 "test-secret"
           (webhookRequest "t=1700000000,v1=abc" ""
                           (list_byte_of_string "{}"))
           (list_byte_of_string "{}") 1700000000 "abc").
  - reflexivity.
  - discriminate.
  - reflexivity.
  - vm_compute. reflexivity.
  - now left.
  - vm_compute. reflexivity.
  - vm_compute. reflexivity.
Defined.
